(** * instadm: the Instagram comment webhook (src/app/api/webhook/route.ts)

    A shallow embedding of the two route handlers [GET] and [POST] and of
    the helper [sendPrivateReply], followed by the properties the
    specification states about them.

    The handlers are asynchronous functions that log to the console, read
    the request body and call [fetch]; every [await] in the source is
    sequential, so a handler is modelled as a computation that receives the
    history of events so far, emits its own events in order, and either
    returns a value or throws. *)

From Stdlib Require Import String Ascii List ZArith Bool Lia.
From Stdlib Require Import PrimFloat.
Import ListNotations.
Set Warnings "-register-all".
Open Scope string_scope.
Open Scope list_scope.
Open Scope Z_scope.

(* ================================================================== *)
(** ** JavaScript values *)

(** What [JSON.parse] can produce, plus [undefined] (the value of a missing
    property or of a missing environment variable).  A number is the
    IEEE-754 double the runtime holds.  [VObj] lists the members of an
    object in source order. *)
Inductive jsval : Type :=
| VUndefined
| VNull
| VBool (b : bool)
| VNum (x : float)
| VStr (s : string)
| VArr (elems : list jsval)
| VObj (props : list (string * jsval)).

(** The exceptions the handlers can meet. *)
Inductive exn : Type :=
| TypeError
| SyntaxError
| OtherError (name : string).

Inductive result (A : Type) : Type :=
| Ok (a : A)
| Throw (e : exn).
Arguments Ok {A} a.
Arguments Throw {A} e.

(** [ToBoolean]: what [!x], [x || y] and [if (x)] test. *)
Definition truthy (v : jsval) : bool :=
  match v with
  | VUndefined | VNull => false
  | VBool b => b
  | VNum x => negb (PrimFloat.eqb x 0%float || PrimFloat.is_nan x)
  | VStr s => negb (String.eqb s "")
  | VArr _ | VObj _ => true
  end.

(** [x === y].  Two objects are identical only when they are the same
    allocation; the handlers only ever compare against primitives. *)
Definition strict_eq (a b : jsval) : bool :=
  match a, b with
  | VUndefined, VUndefined => true
  | VNull, VNull => true
  | VBool x, VBool y => Bool.eqb x y
  | VNum x, VNum y => PrimFloat.eqb x y
  | VStr x, VStr y => String.eqb x y
  | _, _ => false
  end.

(** Own member [k] of a parsed object; a repeated key keeps its last
    occurrence, as [JSON.parse] does. *)
Fixpoint own_prop (k : string) (props : list (string * jsval)) : option jsval :=
  match props with
  | [] => None
  | (k', v) :: rest =>
      match own_prop k rest with
      | Some w => Some w
      | None => if String.eqb k' k then Some v else None
      end
  end.

(** [v.k] for the data member names the handlers read ([object], [entry],
    [changes], [field], [value], [text], [comment_id], [error]): none of
    them is inherited from a prototype, so on anything but an object the
    read gives [undefined], and on [null] or [undefined] it throws. *)
Definition get_prop (v : jsval) (k : string) : result jsval :=
  match v with
  | VUndefined | VNull => Throw TypeError
  | VObj props =>
      match own_prop k props with
      | Some w => Ok w
      | None => Ok VUndefined
      end
  | _ => Ok VUndefined
  end.

(** [x || d] *)
Definition or_default (x d : jsval) : jsval := if truthy x then x else d.

(** [x ?? d] *)
Definition nullish_default (x d : jsval) : jsval :=
  match x with
  | VUndefined | VNull => d
  | _ => x
  end.

(** What [for (const x of v)] walks through: the elements of an array, the
    characters of a string; anything else is not iterable. *)
Definition iterate (v : jsval) : result (list jsval) :=
  match v with
  | VArr elems => Ok elems
  | VStr s => Ok (map (fun c => VStr (String c "")) (list_ascii_of_string s))
  | _ => Throw TypeError
  end.

(** Whether [`${v}`] throws.  A parsed object converts through
    [Object.prototype.toString] unless it has a member named [toString] of
    its own (never callable in parsed JSON), in which case no conversion
    is left; an array joins the conversions of its elements. *)
Fixpoint to_string_throws (v : jsval) : bool :=
  match v with
  | VObj props => existsb (fun p => String.eqb (fst p) "toString") props
  | VArr elems => existsb to_string_throws elems
  | _ => false
  end.

(* ================================================================== *)
(** ** Strings *)

(** [toLowerCase] on one character.  Text is held as UTF-8; the letters of
    the keyword are ASCII and only ASCII capitals fold onto them. *)
Definition lower_ascii (c : ascii) : ascii :=
  let n := N_of_ascii c in
  if (N.leb 65 n && N.leb n 90)%bool then ascii_of_N (n + 32) else c.

Fixpoint toLowerCase (s : string) : string :=
  match s with
  | EmptyString => EmptyString
  | String c r => String (lower_ascii c) (toLowerCase r)
  end.

(** [s.includes(needle)] *)
Fixpoint includes (s needle : string) : bool :=
  (String.prefix needle s
   || match s with
      | EmptyString => false
      | String _ r => includes r needle
      end)%bool.

(** [rawText.toLowerCase()] on a value: only a string has the method. *)
Definition call_toLowerCase (v : jsval) : result string :=
  match v with
  | VStr s => Ok (toLowerCase s)
  | _ => Throw TypeError
  end.

(* ================================================================== *)
(** ** Requests, responses, events *)

Record NextResponse : Type := mkResponse {
  body : option string;      (* [None] for a [null] body *)
  status : Z
}.

Record NextRequest : Type := mkRequest {
  searchParams : list (string * string);   (* query string, in order *)
  json : result jsval                      (* what [req.json()] settles to *)
}.

(** [process.env] *)
Record Env : Type := mkEnv {
  META_VERIFY_TOKEN : option string;
  META_PAGE_ACCESS_TOKEN : option string
}.

(** The body of the outbound call, before [JSON.stringify]. *)
Record ReplyPayload : Type := mkPayload {
  recipient_comment_id : jsval;
  message_text : string
}.

Record FetchRequest : Type := mkFetch {
  url : string;
  method : string;
  headers : list (string * string);
  fetch_body : ReplyPayload
}.

Inductive log_line : Type :=
| LogWebhookVerified
| LogMissingAccessToken
| LogSkippingComment
| LogKeywordFound (rawText commentId : jsval)
| LogCrash (e : exn)
| LogMetaApiError (err : jsval)
| LogDmSent
| LogNetworkFetchError (e : exn).

Inductive event : Type :=
| EConsole (l : log_line)
| EReqJson
| EFetch (r : FetchRequest)
| EResponseJson.

(** How one outbound call ends: [fetch] rejects, or it resolves to a
    response whose [json()] rejects or gives data. *)
Inductive response_body : Type :=
| NotJson (e : exn)
| Json (data : jsval).

Inductive fetch_outcome : Type :=
| FetchRejects (e : exn)
| FetchResolves (r : response_body).

(** The network: the outcome of a call may depend on everything that
    happened before it. *)
Definition Transport : Type := list event -> FetchRequest -> fetch_outcome.

(* ================================================================== *)
(** ** The handler monad *)

(** A computation reads the history and gives a result together with the
    events it emitted, oldest first. *)
Definition M (A : Type) : Type := list event -> result A * list event.

Definition ret {A} (a : A) : M A := fun _ => (Ok a, []).

Definition throw {A} (e : exn) : M A := fun _ => (Throw e, []).

Definition bind {A B} (m : M A) (f : A -> M B) : M B :=
  fun h =>
    match m h with
    | (Ok a, s1) =>
        match f a (h ++ s1) with
        | (r, s2) => (r, s1 ++ s2)
        end
    | (Throw e, s1) => (Throw e, s1)
    end.

(** [try { m } catch (e) { handler(e) }] *)
Definition try_catch {A} (m : M A) (handler : exn -> M A) : M A :=
  fun h =>
    match m h with
    | (Ok a, s1) => (Ok a, s1)
    | (Throw e, s1) =>
        match handler e (h ++ s1) with
        | (r, s2) => (r, s1 ++ s2)
        end
    end.

Definition emit (e : event) : M unit := fun _ => (Ok tt, [e]).

Definition console (l : log_line) : M unit := emit (EConsole l).

Definition lift {A} (r : result A) : M A := fun _ => (r, []).

Declare Scope handler_scope.
Delimit Scope handler_scope with handler.
Notation "x <- m ;; k" := (bind m (fun x => k))
  (at level 61, m at next level, right associativity) : handler_scope.
Notation "m ;; k" := (bind m (fun _ => k))
  (at level 61, right associativity) : handler_scope.
Open Scope handler_scope.

(** The body of a [for ... of] loop run over the elements in order; a
    throw leaves the loop. *)
Fixpoint for_each {A} (loop_body : A -> M unit) (l : list A) : M unit :=
  match l with
  | [] => ret tt
  | x :: rest => loop_body x ;; for_each loop_body rest
  end.

Definition for_of (v : jsval) (loop_body : jsval -> M unit) : M unit :=
  l <- lift (iterate v) ;; for_each loop_body l.

(* ================================================================== *)
(** ** The route handlers *)

(** [searchParams.get(name)]: the first value under [name], else [null]. *)
Fixpoint searchParams_get (ps : list (string * string)) (name : string) : jsval :=
  match ps with
  | [] => VNull
  | (k, v) :: rest =>
      if String.eqb k name then VStr v else searchParams_get rest name
  end.

(** [process.env.NAME]: a string, or [undefined] when the variable is not
    set. *)
Definition env_value (o : option string) : jsval :=
  match o with
  | Some s => VStr s
  | None => VUndefined
  end.

(** [`${process.env.NAME}`] *)
Definition env_template (o : option string) : string :=
  match o with
  | Some s => s
  | None => "undefined"
  end.

(** The body handed to [new NextResponse(b, ...)] when [b] is a string or
    [null]. *)
Definition body_init (v : jsval) : option string :=
  match v with
  | VStr s => Some s
  | _ => None
  end.

Definition REPLY_TEXT : string :=
  "Hey! 👋 Here is the link to the roadmap you asked for: https://ontheorbit.com/roadmap".

Definition KEYWORD : string := "roadmap".

Section Handlers.

(** [process.env], read once when the module loads. *)
Variable env : Env.
(** The Graph API version in the messaging URL: [v21.0] in the first
    revision of the route, [v24.0] in the second; nothing else differs. *)
Variable api_version : string.
Variable transport : Transport.

Definition VERIFY_TOKEN : jsval := env_value (META_VERIFY_TOKEN env).
Definition PAGE_ACCESS_TOKEN : jsval := env_value (META_PAGE_ACCESS_TOKEN env).

(** *** 1. GET handler (verification) *)
Definition GET (req : NextRequest) : M NextResponse :=
  let mode := searchParams_get (searchParams req) "hub.mode" in
  let token := searchParams_get (searchParams req) "hub.verify_token" in
  let challenge := searchParams_get (searchParams req) "hub.challenge" in
  if (strict_eq mode (VStr "subscribe") && strict_eq token VERIFY_TOKEN)%bool then
    console LogWebhookVerified ;;
    ret (mkResponse (body_init challenge) 200)
  else
    ret (mkResponse (Some "Forbidden") 403).

(** *** 3. Helper: send the DM *)

(** [await fetch(url, init)] *)
Definition fetch (r : FetchRequest) : M response_body :=
  fun h =>
    match transport h r with
    | FetchRejects e => (Throw e, [EFetch r])
    | FetchResolves b => (Ok b, [EFetch r])
    end.

(** [await response.json()] *)
Definition response_json (b : response_body) : M jsval :=
  emit EResponseJson ;;
  match b with
  | NotJson e => throw e
  | Json data => ret data
  end.

Definition reply_request (commentId : jsval) : FetchRequest :=
  mkFetch
    ("https://graph.facebook.com/" ++ api_version
       ++ "/me/messages?access_token="
       ++ env_template (META_PAGE_ACCESS_TOKEN env))%string
    "POST"
    [("Content-Type", "application/json")]
    (mkPayload commentId REPLY_TEXT).

Definition sendPrivateReply (commentId : jsval) : M unit :=
  try_catch
    (response <- fetch (reply_request commentId) ;;
     data <- response_json response ;;
     err <- lift (get_prop data "error") ;;
     if truthy err then console (LogMetaApiError err)
     else console LogDmSent)
    (fun error => console (LogNetworkFetchError error)).

(** *** 2. POST handler (the logic) *)

(** The body of the inner loop, for one [change]. *)
Definition process_change (change : jsval) : M unit :=
  field <- lift (get_prop change "field") ;;
  if strict_eq field (VStr "comments") then
    value <- lift (get_prop change "value") ;;
    rawText <- lift (get_prop value "text") ;;
    commentId <- lift (get_prop value "comment_id") ;;
    if (negb (truthy rawText) || negb (truthy commentId))%bool then
      console LogSkippingComment
    else
      normalizedText <- lift (call_toLowerCase rawText) ;;
      if includes normalizedText KEYWORD then
        (if to_string_throws commentId then throw TypeError
         else console (LogKeywordFound rawText commentId)) ;;
        sendPrivateReply commentId
      else ret tt
  else ret tt.

(** The body of the outer loop, for one [entry]. *)
Definition process_entry (entry : jsval) : M unit :=
  changes <- lift (get_prop entry "changes") ;;
  for_of (nullish_default changes (VArr [])) process_change.

(** [await req.json()] *)
Definition req_json (req : NextRequest) : M jsval :=
  emit EReqJson ;; lift (json req).

Definition SERVER_CONFIG_ERROR : NextResponse :=
  mkResponse (Some "Server Config Error") 500.
Definition EVENT_RECEIVED : NextResponse :=
  mkResponse (Some "EVENT_RECEIVED") 200.
Definition NOT_FOUND : NextResponse :=
  mkResponse (Some "Not Found") 404.
Definition ERROR_HANDLED : NextResponse :=
  mkResponse (Some "Internal Server Error Handled") 200.

(** What stands inside [try { ... }]. *)
Definition POST_try (req : NextRequest) : M NextResponse :=
  if negb (truthy PAGE_ACCESS_TOKEN) then
    console LogMissingAccessToken ;;
    ret SERVER_CONFIG_ERROR
  else
    body <- req_json req ;;
    object <- lift (get_prop body "object") ;;
    if strict_eq object (VStr "instagram") then
      entry <- lift (get_prop body "entry") ;;
      for_of (or_default entry (VArr [])) process_entry ;;
      ret EVENT_RECEIVED
    else
      ret NOT_FOUND.

Definition POST (req : NextRequest) : M NextResponse :=
  try_catch (POST_try req)
    (fun error => console (LogCrash error) ;; ret ERROR_HANDLED).

End Handlers.

(* ================================================================== *)
(** ** The payload as the route's interfaces type it *)

Record ChangeFrom : Type := mkFrom {
  from_id : string;
  username : string
}.

Record ChangeValue : Type := mkValue {
  from : option ChangeFrom;
  item : option string;
  comment_id : option string;
  text : option string;
  post_id : option string
}.

Record WebhookChange : Type := mkChange {
  field : string;
  value : ChangeValue
}.

Record WebhookEntry : Type := mkEntry {
  entry_id : string;
  changes : option (list WebhookChange)   (* optional: some events have none *)
}.

(** [entry] is read with [body.entry || []], so a batch without it is
    admitted as well. *)
Record WebhookPayload : Type := mkWebhook {
  object : string;
  entry : option (list WebhookEntry)
}.

(** The parsed JSON of a typed payload: an optional member that is not
    there is left out of the object. *)
Definition opt_member (k : string) (o : option jsval) : list (string * jsval) :=
  match o with
  | Some v => [(k, v)]
  | None => []
  end.

Definition encode_from (f : ChangeFrom) : jsval :=
  VObj [("id", VStr (from_id f)); ("username", VStr (username f))].

Definition encode_value (v : ChangeValue) : jsval :=
  VObj (opt_member "from" (option_map encode_from (from v))
        ++ opt_member "item" (option_map VStr (item v))
        ++ opt_member "comment_id" (option_map VStr (comment_id v))
        ++ opt_member "text" (option_map VStr (text v))
        ++ opt_member "post_id" (option_map VStr (post_id v))).

Definition encode_change (c : WebhookChange) : jsval :=
  VObj [("field", VStr (field c)); ("value", encode_value (value c))].

Definition encode_entry (e : WebhookEntry) : jsval :=
  VObj (("id", VStr (entry_id e))
        :: opt_member "changes"
             (option_map (fun cs => VArr (map encode_change cs)) (changes e))).

Definition encode_payload (p : WebhookPayload) : jsval :=
  VObj (("object", VStr (object p))
        :: opt_member "entry"
             (option_map (fun es => VArr (map encode_entry es)) (entry p))).

(** A POST whose body parses to the payload [p]. *)
Definition request_of (p : WebhookPayload) : NextRequest :=
  mkRequest [] (Ok (encode_payload p)).

(** Reading a parsed body at the interfaces' types.  A value conforms when
    every member the interfaces name has the type they give it, or is not
    there where they mark it optional; members they do not name are
    allowed and ignored. *)
Definition decode_string (v : jsval) : option string :=
  match v with
  | VStr s => Some s
  | _ => None
  end.

Definition decode_optional {A} (dec : jsval -> option A) (o : option jsval)
  : option (option A) :=
  match o with
  | None => Some None
  | Some v => option_map Some (dec v)
  end.

Fixpoint decode_list {A} (dec : jsval -> option A) (l : list jsval)
  : option (list A) :=
  match l with
  | [] => Some []
  | v :: rest =>
      match dec v, decode_list dec rest with
      | Some a, Some r => Some (a :: r)
      | _, _ => None
      end
  end.

Definition decode_array {A} (dec : jsval -> option A) (v : jsval)
  : option (list A) :=
  match v with
  | VArr l => decode_list dec l
  | _ => None
  end.

Definition decode_from (v : jsval) : option ChangeFrom :=
  match v with
  | VObj props =>
      match own_prop "id" props, own_prop "username" props with
      | Some (VStr i), Some (VStr u) => Some (mkFrom i u)
      | _, _ => None
      end
  | _ => None
  end.

Definition decode_value (v : jsval) : option ChangeValue :=
  match v with
  | VObj props =>
      match decode_optional decode_from (own_prop "from" props),
            decode_optional decode_string (own_prop "item" props),
            decode_optional decode_string (own_prop "comment_id" props),
            decode_optional decode_string (own_prop "text" props),
            decode_optional decode_string (own_prop "post_id" props) with
      | Some f, Some i, Some c, Some t, Some p => Some (mkValue f i c t p)
      | _, _, _, _, _ => None
      end
  | _ => None
  end.

Definition decode_change (v : jsval) : option WebhookChange :=
  match v with
  | VObj props =>
      match own_prop "field" props, own_prop "value" props with
      | Some (VStr f), Some w => option_map (mkChange f) (decode_value w)
      | _, _ => None
      end
  | _ => None
  end.

Definition decode_entry (v : jsval) : option WebhookEntry :=
  match v with
  | VObj props =>
      match own_prop "id" props,
            decode_optional (decode_array decode_change) (own_prop "changes" props) with
      | Some (VStr i), Some cs => Some (mkEntry i cs)
      | _, _ => None
      end
  | _ => None
  end.

Definition decode_payload (v : jsval) : option WebhookPayload :=
  match v with
  | VObj props =>
      match own_prop "object" props,
            decode_optional (decode_array decode_entry) (own_prop "entry" props) with
      | Some (VStr o), Some es => Some (mkWebhook o es)
      | _, _ => None
      end
  | _ => None
  end.

(** The value a read of an optional string member gives. *)
Definition optional_string (o : option string) : jsval :=
  match o with
  | Some s => VStr s
  | None => VUndefined
  end.


(* ================================================================== *)
(** ** Reading a trace *)

(** The outbound calls of a trace, in order. *)
Fixpoint fetches (tr : list event) : list FetchRequest :=
  match tr with
  | [] => []
  | EFetch r :: rest => r :: fetches rest
  | _ :: rest => fetches rest
  end.

(** Whether the request body was read. *)
Definition body_read (tr : list event) : bool :=
  existsb (fun e => match e with EReqJson => true | _ => false end) tr.

(** The three lines with which [sendPrivateReply] ends. *)
Definition settles (l : log_line) : bool :=
  match l with
  | LogMetaApiError _ | LogDmSent | LogNetworkFetchError _ => true
  | _ => false
  end.

(** Every outbound call has settled before anything else happens: between
    a [fetch] and the line that ends its [sendPrivateReply] only the read
    of the response may occur, and nothing is left in flight at the end. *)
Fixpoint awaited (in_flight : bool) (tr : list event) : bool :=
  match tr with
  | [] => negb in_flight
  | EFetch _ :: rest => negb in_flight && awaited true rest
  | EResponseJson :: rest => in_flight && awaited true rest
  | EConsole l :: rest =>
      if settles l then in_flight && awaited false rest
      else negb in_flight && awaited false rest
  | EReqJson :: rest => negb in_flight && awaited false rest
  end.

(* ================================================================== *)
(** ** The specification's vocabulary *)

(** The keyword test of the Event Processor: lower-case, then containment. *)
Definition keyword_match (t : string) : bool :=
  includes (toLowerCase t) KEYWORD.

(** [needle] occurs in [s]. *)
Definition substring (needle s : string) : Prop :=
  exists pre post : string, s = (pre ++ needle ++ post)%string.

(** The change events of a batch, in batch order. *)
Definition changes_of (p : WebhookPayload) : list WebhookChange :=
  flat_map (fun e => match changes e with Some cs => cs | None => [] end)
           (match entry p with Some es => es | None => [] end).

Definition is_nonempty (s : string) : bool := negb (String.eqb s "").

(** A matching comment as the specification words it: a [comments] event
    with [text] and [comment_id] present whose text holds the keyword. *)
Definition worded_match (c : WebhookChange) : option string :=
  if String.eqb (field c) "comments" then
    match text (value c), comment_id (value c) with
    | Some t, Some i => if keyword_match t then Some i else None
    | _, _ => None
    end
  else None.

(** A matching comment as the handler tests it: both members present and
    neither of them the empty string. *)
Definition actionable_match (c : WebhookChange) : option string :=
  if String.eqb (field c) "comments" then
    match text (value c), comment_id (value c) with
    | Some t, Some i =>
        if (is_nonempty t && is_nonempty i && keyword_match t)%bool
        then Some i else None
    | _, _ => None
    end
  else None.

Definition select {A B} (f : A -> option B) (l : list A) : list B :=
  flat_map (fun a => match f a with Some b => [b] | None => [] end) l.

Definition worded_matches (p : WebhookPayload) : list string :=
  select worded_match (changes_of p).

Definition actionable_matches (p : WebhookPayload) : list string :=
  select actionable_match (changes_of p).

Definition is_2xx (r : NextResponse) : bool :=
  (200 <=? status r) && (status r <? 300).

Definition is_5xx (r : NextResponse) : bool :=
  (500 <=? status r) && (status r <? 600).

(** A loop step or loop that ends normally whatever came before it, having
    sent exactly the replies [ids], in that order, each one settled before
    the next event. *)
Definition dispatches_exactly
    (request : jsval -> FetchRequest) (m : M unit) (ids : list string) : Prop :=
  forall h, exists s,
    m h = (Ok tt, s)
    /\ fetches s = map (fun i => request (VStr i)) ids
    /\ awaited false s = true.

Definition option_list {A} (o : option A) : list A :=
  match o with
  | Some a => [a]
  | None => []
  end.

Definition changes_or_nil (e : WebhookEntry) : list WebhookChange :=
  match changes e with
  | Some cs => cs
  | None => []
  end.

(** Two computations that end the same way (same value or same throw)
    whatever histories they start from. *)
Definition same_result {A} (m1 m2 : M A) : Prop :=
  forall h1 h2, fst (m1 h1) = fst (m2 h2).

Definition FORBIDDEN : NextResponse := mkResponse (Some "Forbidden") 403.

(* ================================================================== *)
(** ** Sample inputs *)

Module Samples.

Definition env : Env := mkEnv (Some "verify-me") (Some "page-token").
Definition env_no_access_token : Env := mkEnv (Some "verify-me") None.
Definition env_empty_access_token : Env := mkEnv (Some "verify-me") (Some "").

(** A network on which every call is accepted. *)
Definition net_ok : Transport :=
  fun _ _ => FetchResolves (Json (VObj [("message_id", VStr "m_1")])).

(** A network that answers the first call with an error object, fails the
    second in transport, and answers the rest with something that is not
    JSON. *)
Definition net_failing : Transport :=
  fun h _ =>
    match fetches h with
    | [] => FetchResolves
              (Json (VObj [("error", VObj [("code", VNum 190%float)])]))
    | [_] => FetchRejects TypeError
    | _ => FetchResolves (NotJson SyntaxError)
    end.

Definition comment (t i : option string) : WebhookChange :=
  mkChange "comments" (mkValue None None i t None).

Definition batch (cs : list WebhookChange) : WebhookPayload :=
  mkWebhook "instagram" (Some [mkEntry "17841400000000000" (Some cs)]).

(** Two matching comments around one that does not match, one without
    text, one that is not a comment event. *)
Definition mixed_batch : WebhookPayload :=
  mkWebhook "instagram"
    (Some [mkEntry "17841400000000000"
             (Some [comment (Some "Roadmap?") (Some "c1");
                    comment (Some "road map") (Some "c2");
                    comment None (Some "c3")]);
           mkEntry "17841400000000001" None;
           mkEntry "17841400000000002"
             (Some [mkChange "mentions" (mkValue None None (Some "c4") (Some "roadmap") None);
                    comment (Some "see the ROADMAPPING doc") (Some "c5")])]).

(** The same batch as it arrives, with members the interfaces do not
    name. *)
Definition raw_comment (t i : string) : jsval :=
  VObj [("field", VStr "comments");
        ("value",
         VObj [("from", VObj [("id", VStr "4242"); ("username", VStr "ada")]);
               ("media", VObj [("id", VStr "m_1");
                               ("media_product_type", VStr "FEED")]);
               ("comment_id", VStr i);
               ("text", VStr t)])].

Definition mixed_body : jsval :=
  VObj [("object", VStr "instagram");
        ("entry",
         VArr [VObj [("id", VStr "17841400000000000");
                     ("time", VNum 1700000000%float);
                     ("changes",
                      VArr [raw_comment "Roadmap?" "c1";
                            raw_comment "road map" "c2";
                            VObj [("field", VStr "comments");
                                  ("value", VObj [("comment_id", VStr "c3")])]])];
               VObj [("id", VStr "17841400000000001");
                     ("time", VNum 1700000001%float)];
               VObj [("id", VStr "17841400000000002");
                     ("time", VNum 1700000002%float);
                     ("changes",
                      VArr [VObj [("field", VStr "mentions");
                                  ("value", VObj [("comment_id", VStr "c4");
                                                  ("text", VStr "roadmap")])];
                            raw_comment "see the ROADMAPPING doc" "c5"])]])].

Definition mixed_body_typed : WebhookPayload :=
  let from_ada := Some (mkFrom "4242" "ada") in
  mkWebhook "instagram"
    (Some [mkEntry "17841400000000000"
             (Some [mkChange "comments"
                      (mkValue from_ada None (Some "c1") (Some "Roadmap?") None);
                    mkChange "comments"
                      (mkValue from_ada None (Some "c2") (Some "road map") None);
                    comment None (Some "c3")]);
           mkEntry "17841400000000001" None;
           mkEntry "17841400000000002"
             (Some [mkChange "mentions"
                      (mkValue None None (Some "c4") (Some "roadmap") None);
                    mkChange "comments"
                      (mkValue from_ada None (Some "c5")
                         (Some "see the ROADMAPPING doc") None)])]).

(** A comment that holds the keyword and whose [comment_id] is the empty
    string. *)
Definition empty_id_batch : WebhookPayload :=
  batch [comment (Some "roadmap") (Some "")].

Definition empty_id_then_match : WebhookPayload :=
  batch [comment (Some "roadmap") (Some ""); comment (Some "roadmap") (Some "c9")].

(** A comment event whose [text] is a number: [toLowerCase] is not a
    function on it. *)
Definition numeric_text_request : NextRequest :=
  mkRequest []
    (Ok (VObj [("object", VStr "instagram");
               ("entry",
                VArr [VObj [("id", VStr "1");
                            ("changes",
                             VArr [VObj [("field", VStr "comments");
                                         ("value",
                                          VObj [("text", VNum 5%float);
                                                ("comment_id", VStr "c1")])]])]])])).

Definition unparsable_request : NextRequest := mkRequest [] (Throw SyntaxError).

Definition page_batch : WebhookPayload := mkWebhook "page" (Some []).

Definition heartbeat_batch : WebhookPayload :=
  mkWebhook "instagram" (Some [mkEntry "1" None; mkEntry "2" None]).

Definition verification (params : list (string * string)) : NextRequest :=
  mkRequest params (Throw SyntaxError).

End Samples.

(* ================================================================== *)
(** ** More vocabulary and sample inputs *)

(** The outbound calls of a trace are all private replies as
    [sendPrivateReply] builds them, and each has settled before the next
    event. *)
Definition orderly (env : Env) (api_version : string) (s : list event) : Prop :=
  awaited false s = true
  /\ Forall (fun r => r = reply_request env api_version
                           (recipient_comment_id (fetch_body r)))
            (fetches s).

(** The members of a query string, by name. *)
Definition has_param (ps : list (string * string)) (name : string) : bool :=
  existsb (fun p => String.eqb (fst p) name) ps.

Module EdgeSamples.

Definition instagram_body (entry : jsval) : jsval :=
  VObj [("object", VStr "instagram"); ("entry", entry)].

Definition raw_change (field : string) (text comment_id : jsval) : jsval :=
  VObj [("field", VStr field);
        ("value", VObj [("text", text); ("comment_id", comment_id)])].


Definition entry_with_changes (changes : jsval) : jsval :=
  VObj [("id", VStr "1"); ("changes", changes)].

(** A network that accepts every call but answers [null]. *)
Definition net_null : Transport := fun _ _ => FetchResolves (Json VNull).



(** Events of other fields; the second has no [value]. *)
Definition body_other_fields : jsval :=
  instagram_body
    (VArr [entry_with_changes
             (VArr [raw_change "mentions" (VStr "roadmap") (VStr "c1");
                    VObj [("field", VStr "story_insights")]])]).

Definition repeated_comment : WebhookChange :=
  Samples.comment (Some "Roadmap!") (Some "c1").

End EdgeSamples.

(* ================================================================== *)
(** ** Strings: containment and letter case *)

Lemma prefix_split (n s : string) :
  String.prefix n s = true <-> exists post, s = (n ++ post)%string.
Proof.
  revert s; induction n as [|a n IH]; intros s; simpl.
  - destruct s; split; intros; eauto.
  - destruct s as [|b s].
    + split; [discriminate | intros [post H]; discriminate].
    + simpl. destruct (ascii_dec a b) as [->|Hab].
      * rewrite IH. split; intros [post H]; exists post.
        -- now rewrite H.
        -- now injection H.
      * split; [discriminate | intros [post H]]. injection H as Hb _.
        now elim Hab.
Qed.

Lemma includes_substring (s n : string) :
  includes s n = true <-> substring n s.
Proof.
  unfold substring. induction s as [|c s IH]; cbn [includes].
  - rewrite orb_false_r, prefix_split. split.
    + intros [post H]. now exists "", post.
    + intros [[|c pre] [post H]]; [now exists post | discriminate].
  - rewrite orb_true_iff, prefix_split, IH. split.
    + intros [[post H] | [pre [post H]]].
      * now exists "", post.
      * exists (String c pre), post. simpl. now rewrite H.
    + intros [[|c' pre] [post H]].
      * left. now exists post.
      * right. simpl in H. injection H as _ H. now exists pre, post.
Qed.

Lemma toLowerCase_app (a b : string) :
  toLowerCase (a ++ b) = (toLowerCase a ++ toLowerCase b)%string.
Proof. induction a as [|c a IH]; simpl; [reflexivity | now rewrite IH]. Qed.

Lemma toLowerCase_split (t x y : string) :
  toLowerCase t = (x ++ y)%string ->
  exists a b, t = (a ++ b)%string /\ toLowerCase a = x /\ toLowerCase b = y.
Proof.
  revert t; induction x as [|c x IH]; intros t H; simpl in H.
  - now exists "", t.
  - destruct t as [|d t]; [discriminate|]. simpl in H.
    injection H as Hc Ht. destruct (IH _ Ht) as (a & b & -> & Ha & Hb).
    exists (String d a), b. simpl. now rewrite Hc, Ha, Hb.
Qed.

Lemma lower_ascii_idempotent (c : ascii) :
  lower_ascii (lower_ascii c) = lower_ascii c.
Proof.
  destruct c as [b0 b1 b2 b3 b4 b5 b6 b7].
  destruct b0, b1, b2, b3, b4, b5, b6, b7; reflexivity.
Qed.

Lemma toLowerCase_idempotent (s : string) :
  toLowerCase (toLowerCase s) = toLowerCase s.
Proof.
  induction s as [|c s IH]; simpl; [reflexivity|].
  now rewrite lower_ascii_idempotent, IH.
Qed.

(** The keyword test holds exactly of the texts that contain some spelling
    of the keyword, whatever the case of its letters. *)
Lemma keyword_match_spec (t : string) :
  keyword_match t = true <->
  exists pre mid post,
    t = (pre ++ mid ++ post)%string /\ toLowerCase mid = KEYWORD.
Proof.
  unfold keyword_match. rewrite includes_substring. unfold substring. split.
  - intros (x & y & H).
    destruct (toLowerCase_split _ _ _ H) as (pre & r & -> & _ & Hr).
    destruct (toLowerCase_split _ _ _ Hr) as (mid & post & -> & Hm & _).
    now exists pre, mid, post.
  - intros (pre & mid & post & -> & Hm).
    exists (toLowerCase pre), (toLowerCase post).
    now rewrite !toLowerCase_app, Hm.
Qed.

Lemma keyword_match_case_insensitive (t t' : string) :
  toLowerCase t = toLowerCase t' -> keyword_match t = keyword_match t'.
Proof. unfold keyword_match. now intros ->. Qed.

(* ================================================================== *)
(** ** Traces *)

Lemma fetches_app (s1 s2 : list event) :
  fetches (s1 ++ s2) = fetches s1 ++ fetches s2.
Proof.
  induction s1 as [|e s1 IH]; simpl; [reflexivity|].
  destruct e; simpl; now rewrite IH.
Qed.

Lemma awaited_app (b : bool) (s1 s2 : list event) :
  awaited b s1 = true -> awaited b (s1 ++ s2) = awaited false s2.
Proof.
  revert b; induction s1 as [|e s1 IH]; intros b; simpl.
  - now destruct b.
  - destruct e as [l| |r|]; try destruct (settles l);
      rewrite ?andb_true_iff; intros [Hb H]; rewrite Hb; simpl; now apply IH.
Qed.

(* ================================================================== *)
(** ** The Reply Dispatcher *)

Section Dispatcher.

Variable env : Env.
Variable api_version : string.
Variable transport : Transport.

#[local] Abbreviation send := (sendPrivateReply env api_version transport).
#[local] Abbreviation request := (reply_request env api_version).

(** What one call of [sendPrivateReply] emits, by the way the outbound
    call ends. *)
Lemma sendPrivateReply_run (commentId : jsval) (h : list event) :
  send commentId h =
  (Ok tt,
   EFetch (request commentId) ::
   match transport h (request commentId) with
   | FetchRejects e => [EConsole (LogNetworkFetchError e)]
   | FetchResolves (NotJson e) =>
       [EResponseJson; EConsole (LogNetworkFetchError e)]
   | FetchResolves (Json data) =>
       [EResponseJson;
        EConsole match get_prop data "error" with
                 | Throw e => LogNetworkFetchError e
                 | Ok err =>
                     if truthy err then LogMetaApiError err else LogDmSent
                 end]
   end).
Proof.
  unfold sendPrivateReply, try_catch, bind, fetch.
  destruct (transport h (request commentId)) as [e | [e | data]];
    simpl; try reflexivity.
  destruct (get_prop data "error") as [err | e]; simpl; [|reflexivity].
  destruct (truthy err); reflexivity.
Qed.

Lemma sendPrivateReply_trace (commentId : jsval) (h : list event) :
  exists tail,
    send commentId h = (Ok tt, EFetch (request commentId) :: tail)
    /\ fetches tail = [] /\ awaited true tail = true.
Proof.
  rewrite sendPrivateReply_run. eexists; split; [reflexivity|].
  destruct (transport h (request commentId)) as [e | [e | data]];
    simpl; auto.
  destruct (get_prop data "error") as [err | e]; simpl; auto.
  destruct (truthy err); auto.
Qed.

End Dispatcher.

(* ================================================================== *)
(** ** Running the monad *)

Lemma bind_lift_Ok {A B} (a : A) (f : A -> M B) (h : list event) :
  bind (lift (Ok a)) f h = f a h.
Proof.
  unfold bind, lift. rewrite app_nil_r. now destruct (f a h).
Qed.

Lemma bind_lift_Throw {A B} (e : exn) (f : A -> M B) (h : list event) :
  bind (lift (Throw e)) f h = (Throw e, []).
Proof. reflexivity. Qed.

Lemma bind_ret {A B} (a : A) (f : A -> M B) (h : list event) :
  bind (ret a) f h = f a h.
Proof. exact (bind_lift_Ok a f h). Qed.

(** One step of a computation that begins with a settled read. *)
Ltac run_lift :=
  match goal with
  | |- context [bind (lift (Ok ?a)) ?f ?h] => rewrite (bind_lift_Ok a f h)
  | |- context [bind (lift (Throw ?e)) ?f ?h] => rewrite (bind_lift_Throw e f h)
  | |- context [bind (ret ?a) ?f ?h] => rewrite (bind_ret a f h)
  end.

(* ================================================================== *)
(** ** Values *)

Lemma strict_eq_VStr (v : jsval) (s : string) :
  strict_eq v (VStr s) = true <-> v = VStr s.
Proof.
  destruct v; simpl; split; try discriminate.
  - intros H. apply String.eqb_eq in H. now subst.
  - intros H. injection H as ->. apply String.eqb_refl.
Qed.

Lemma strict_eq_VStr_false (v : jsval) (s : string) :
  v <> VStr s -> strict_eq v (VStr s) = false.
Proof.
  intros H. destruct (strict_eq v (VStr s)) eqn:E; [|reflexivity].
  apply strict_eq_VStr in E. contradiction.
Qed.

(** The guard [!PAGE_ACCESS_TOKEN] passes exactly when the variable is set
    to something other than the empty string. *)
Lemma access_token_guard (env : Env) :
  truthy (PAGE_ACCESS_TOKEN env) = true <->
  exists tok, META_PAGE_ACCESS_TOKEN env = Some tok /\ tok <> "".
Proof.
  unfold PAGE_ACCESS_TOKEN. destruct (META_PAGE_ACCESS_TOKEN env) as [tok|]; simpl.
  - rewrite negb_true_iff, String.eqb_neq. split.
    + intros H. now exists tok.
    + intros (t & [= <-] & H). exact H.
  - split; [discriminate | intros (t & H & _); discriminate].
Qed.

Lemma is_nonempty_true (s : string) : is_nonempty s = true <-> s <> "".
Proof. unfold is_nonempty. now rewrite negb_true_iff, String.eqb_neq. Qed.

(** What the handler reads from a value that conforms to the interfaces. *)
Lemma read_optional_string (o : option jsval) (r : option string) :
  decode_optional decode_string o = Some r ->
  match o with Some w => Ok w | None => Ok VUndefined end
  = Ok (optional_string r).
Proof.
  destruct o as [[]|]; simpl; intros H; try discriminate;
    now injection H as <-.
Qed.

Lemma decode_value_reads (w : jsval) (v : ChangeValue) :
  decode_value w = Some v ->
  get_prop w "text" = Ok (optional_string (text v))
  /\ get_prop w "comment_id" = Ok (optional_string (comment_id v)).
Proof.
  destruct w as [| | | | | |props]; try discriminate. simpl.
  destruct (decode_optional decode_from _) as [f|]; [|discriminate].
  destruct (decode_optional decode_string (own_prop "item" props)) as [i|];
    [|discriminate].
  destruct (decode_optional decode_string (own_prop "comment_id" props))
    as [c|] eqn:Ec; [|discriminate].
  destruct (decode_optional decode_string (own_prop "text" props))
    as [t|] eqn:Et; [|discriminate].
  destruct (decode_optional decode_string (own_prop "post_id" props)) as [p|];
    [|discriminate].
  intros [= <-]. simpl. split; now apply read_optional_string.
Qed.

Lemma decode_change_reads (j : jsval) (c : WebhookChange) :
  decode_change j = Some c ->
  exists w,
    get_prop j "field" = Ok (VStr (field c))
    /\ get_prop j "value" = Ok w
    /\ get_prop w "text" = Ok (optional_string (text (value c)))
    /\ get_prop w "comment_id" = Ok (optional_string (comment_id (value c))).
Proof.
  destruct j as [| | | | | |props]; try discriminate. simpl.
  destruct (own_prop "field" props) as [[| | | |f| |]|]; try discriminate.
  destruct (own_prop "value" props) as [w|]; [|discriminate].
  destruct (decode_value w) as [v|] eqn:Ev; [|discriminate].
  intros [= <-]. exists w. simpl.
  destruct (decode_value_reads w v Ev) as [Ht Hc]. auto.
Qed.

Lemma decode_entry_reads (j : jsval) (e : WebhookEntry) :
  decode_entry j = Some e ->
  (changes e = None /\ get_prop j "changes" = Ok VUndefined)
  \/ (exists js cs,
         changes e = Some cs /\ get_prop j "changes" = Ok (VArr js)
         /\ decode_list decode_change js = Some cs).
Proof.
  destruct j as [| | | | | |props]; try discriminate. simpl.
  destruct (own_prop "id" props) as [[| | | |i| |]|]; try discriminate.
  destruct (own_prop "changes" props) as [w|]; simpl.
  - destruct w as [| | | | |js|]; try discriminate. simpl.
    destruct (decode_list decode_change js) as [cs|] eqn:E; [|discriminate].
    intros [= <-]. right. now exists js, cs.
  - intros [= <-]. now left.
Qed.

Lemma decode_payload_reads (b : jsval) (p : WebhookPayload) :
  decode_payload b = Some p ->
  get_prop b "object" = Ok (VStr (object p))
  /\ ((entry p = None /\ get_prop b "entry" = Ok VUndefined)
      \/ (exists js es,
             entry p = Some es /\ get_prop b "entry" = Ok (VArr js)
             /\ decode_list decode_entry js = Some es)).
Proof.
  destruct b as [| | | | | |props]; try discriminate. simpl.
  destruct (own_prop "object" props) as [[| | | |o| |]|]; try discriminate.
  destruct (own_prop "entry" props) as [w|]; simpl.
  - destruct w as [| | | | |js|]; try discriminate. simpl.
    destruct (decode_list decode_entry js) as [es|] eqn:E; [|discriminate].
    intros [= <-]. split; [reflexivity|]. right. now exists js, es.
  - intros [= <-]. split; [reflexivity|]. now left.
Qed.

(** The encoding of a typed payload conforms and reads back as itself. *)
Lemma decode_list_map {A} (dec : jsval -> option A) (enc : A -> jsval) (l : list A) :
  (forall a, dec (enc a) = Some a) ->
  decode_list dec (map enc l) = Some l.
Proof.
  intros H. induction l as [|a l IH]; simpl; [reflexivity|].
  now rewrite H, IH.
Qed.

Lemma decode_encode_change (c : WebhookChange) :
  decode_change (encode_change c) = Some c.
Proof.
  destruct c as [f [[[fi fu]|] [i|] [c|] [t|] [p|]]]; reflexivity.
Qed.

Lemma decode_encode_entry (e : WebhookEntry) :
  decode_entry (encode_entry e) = Some e.
Proof.
  destruct e as [i [cs|]]; [|reflexivity].
  unfold encode_entry, decode_entry. simpl.
  now rewrite (decode_list_map _ _ cs decode_encode_change).
Qed.

Lemma decode_encode_payload (p : WebhookPayload) :
  decode_payload (encode_payload p) = Some p.
Proof.
  destruct p as [o [es|]]; [|reflexivity].
  unfold encode_payload, decode_payload. simpl.
  now rewrite (decode_list_map _ _ es decode_encode_entry).
Qed.

(** The two readings of "matching comment" part only on a [comment_id]
    that is present and empty. *)
Lemma worded_match_actionable (c : WebhookChange) :
  comment_id (value c) <> Some "" ->
  worded_match c = actionable_match c.
Proof.
  intros Hne. unfold worded_match, actionable_match.
  destruct (String.eqb (field c) "comments"); [|reflexivity].
  destruct (text (value c)) as [t|]; [|reflexivity].
  destruct (comment_id (value c)) as [i|]; [|reflexivity].
  assert (Hi : is_nonempty i = true).
  { apply is_nonempty_true. intros ->. now apply Hne. }
  rewrite Hi, andb_true_r. unfold is_nonempty.
  destruct (String.eqb_spec t "") as [->|]; reflexivity.
Qed.

Lemma worded_matches_actionable (p : WebhookPayload) :
  Forall (fun c => comment_id (value c) <> Some "") (changes_of p) ->
  worded_matches p = actionable_matches p.
Proof.
  unfold worded_matches, actionable_matches, select.
  induction 1 as [|c l Hc _ IH]; simpl; [reflexivity|].
  now rewrite (worded_match_actionable c Hc), IH.
Qed.

(* ================================================================== *)
(** ** The Event Processor on bodies that conform *)

Section Processor.

Variable env : Env.
Variable api_version : string.
Variable transport : Transport.

#[local] Abbreviation send := (sendPrivateReply env api_version transport).
#[local] Abbreviation request := (reply_request env api_version).
#[local] Abbreviation change_step := (process_change env api_version transport).
#[local] Abbreviation entry_step := (process_entry env api_version transport).

(** [POST] is its [try] block with every throw turned into the handled
    response. *)
Lemma POST_catch (req : NextRequest) (h : list event) :
  POST env api_version transport req h =
  match POST_try env api_version transport req h with
  | (Ok r, s) => (Ok r, s)
  | (Throw e, s) => (Ok ERROR_HANDLED, s ++ [EConsole (LogCrash e)])
  end.
Proof.
  unfold POST, try_catch.
  destruct (POST_try env api_version transport req h) as [[r|e] s]; reflexivity.
Qed.

(** The [try] block when the credential guard fails. *)
Lemma POST_try_unconfigured (req : NextRequest) (h : list event) :
  truthy (PAGE_ACCESS_TOKEN env) = false ->
  POST_try env api_version transport req h =
  (Ok SERVER_CONFIG_ERROR, [EConsole LogMissingAccessToken]).
Proof. intros H. unfold POST_try. now rewrite H. Qed.

(** The [try] block when the body does not parse. *)
Lemma POST_try_unparsed (req : NextRequest) (e : exn) (h : list event) :
  truthy (PAGE_ACCESS_TOKEN env) = true ->
  json req = Throw e ->
  POST_try env api_version transport req h = (Throw e, [EReqJson]).
Proof.
  intros H Hj. unfold POST_try. rewrite H. change (negb true) with false. cbv iota.
  unfold req_json, bind, emit, lift. now rewrite Hj.
Qed.

(** The [try] block once the body has parsed to [b]. *)
Lemma POST_try_parsed (req : NextRequest) (b : jsval) (h : list event) :
  truthy (PAGE_ACCESS_TOKEN env) = true ->
  json req = Ok b ->
  POST_try env api_version transport req h =
  match get_prop b "object" with
  | Throw e => (Throw e, [EReqJson])
  | Ok o =>
      if strict_eq o (VStr "instagram") then
        match get_prop b "entry" with
        | Throw e => (Throw e, [EReqJson])
        | Ok en =>
            match for_of (or_default en (VArr [])) entry_step (h ++ [EReqJson]) with
            | (Ok _, s) => (Ok EVENT_RECEIVED, EReqJson :: s)
            | (Throw e, s) => (Throw e, EReqJson :: s)
            end
        end
      else (Ok NOT_FOUND, [EReqJson])
  end.
Proof.
  intros H Hj. unfold POST_try. rewrite H. change (negb true) with false. cbv iota.
  unfold req_json. unfold bind at 1. unfold bind at 1. unfold emit, lift at 1.
  rewrite Hj. simpl app.
  destruct (get_prop b "object") as [o|e]; [run_lift | now rewrite bind_lift_Throw].
  destruct (strict_eq o (VStr "instagram")); [|reflexivity].
  destruct (get_prop b "entry") as [en|e]; [run_lift | now rewrite bind_lift_Throw].
  unfold bind.
  destruct (for_of (or_default en (VArr [])) entry_step (h ++ [EReqJson]))
    as [[[]|e] s]; [|reflexivity].
  simpl. now rewrite app_nil_r.
Qed.

(** Unfolds the step on a change that conforms, up to the test on [text]
    and [comment_id]. *)
Ltac read_change Hdec :=
  let w := fresh "w" in
  let Hfield := fresh "Hfield" in
  let Hvalue := fresh "Hvalue" in
  let Htext := fresh "Htext" in
  let Hid := fresh "Hid" in
  destruct (decode_change_reads _ _ Hdec) as (w & Hfield & Hvalue & Htext & Hid);
  unfold process_change; rewrite Hfield; run_lift.

Ltac read_comment Hf :=
  rewrite Hf, (proj2 (strict_eq_VStr _ _) eq_refl);
  match goal with
  | Hvalue : get_prop _ "value" = Ok _ |- _ => rewrite Hvalue; run_lift
  end;
  match goal with
  | Htext : get_prop _ "text" = Ok _ |- _ => rewrite Htext; run_lift
  end;
  match goal with
  | Hid : get_prop _ "comment_id" = Ok _ |- _ => rewrite Hid; run_lift
  end.

(** A comment event that passes both tests: one log line, then the
    dispatch. *)
Lemma process_change_match
    (j : jsval) (c : WebhookChange) (t i : string) (h : list event) :
  decode_change j = Some c ->
  field c = "comments" ->
  text (value c) = Some t -> comment_id (value c) = Some i ->
  t <> "" -> i <> "" -> keyword_match t = true ->
  change_step j h =
  (Ok tt,
   EConsole (LogKeywordFound (VStr t) (VStr i))
   :: snd (send (VStr i) (h ++ [EConsole (LogKeywordFound (VStr t) (VStr i))]))).
Proof.
  intros Hdec Hf Ht Hi Hte Hie Hk. read_change Hdec. read_comment Hf.
  rewrite Ht, Hi. unfold optional_string, truthy.
  apply String.eqb_neq in Hte, Hie. rewrite Hte, Hie. simpl.
  run_lift. unfold keyword_match in Hk. rewrite Hk.
  unfold bind, console, emit. rewrite sendPrivateReply_run. reflexivity.
Qed.

(** A comment event with [text] or [comment_id] missing or empty: the
    skip line and nothing else. *)
Lemma process_change_skip (j : jsval) (c : WebhookChange) (h : list event) :
  decode_change j = Some c ->
  field c = "comments" ->
  (match text (value c) with Some t => is_nonempty t | None => false end
   && match comment_id (value c) with Some i => is_nonempty i | None => false end
   = false)%bool ->
  change_step j h = (Ok tt, [EConsole LogSkippingComment]).
Proof.
  intros Hdec Hf H. read_change Hdec. read_comment Hf.
  unfold is_nonempty in H.
  destruct (text (value c)) as [t|], (comment_id (value c)) as [i|];
    simpl in *; try reflexivity.
  - destruct (String.eqb t ""), (String.eqb i ""); simpl in *;
      try reflexivity; discriminate.
  - destruct (String.eqb t ""); reflexivity.
Qed.

(** A comment event whose text lacks the keyword, and any event that is
    not a comment event: nothing at all. *)
Lemma process_change_no_keyword
    (j : jsval) (c : WebhookChange) (t i : string) (h : list event) :
  decode_change j = Some c ->
  field c = "comments" ->
  text (value c) = Some t -> comment_id (value c) = Some i ->
  t <> "" -> i <> "" -> keyword_match t = false ->
  change_step j h = (Ok tt, []).
Proof.
  intros Hdec Hf Ht Hi Hte Hie Hk. read_change Hdec. read_comment Hf.
  rewrite Ht, Hi. unfold optional_string, truthy.
  apply String.eqb_neq in Hte, Hie. rewrite Hte, Hie. simpl.
  run_lift. unfold keyword_match in Hk. now rewrite Hk.
Qed.

Lemma process_change_other_field (j : jsval) (c : WebhookChange) (h : list event) :
  decode_change j = Some c ->
  field c <> "comments" ->
  change_step j h = (Ok tt, []).
Proof.
  intros Hdec Hf. read_change Hdec. unfold strict_eq.
  apply String.eqb_neq in Hf. now rewrite Hf.
Qed.

Lemma process_change_typed (j : jsval) (c : WebhookChange) :
  decode_change j = Some c ->
  dispatches_exactly request (change_step j) (option_list (actionable_match c)).
Proof.
  intros Hdec h. unfold actionable_match.
  destruct (String.eqb_spec (field c) "comments") as [Hf|Hf].
  2:{ rewrite (process_change_other_field j c) by assumption. now exists []. }
  destruct (text (value c)) as [t|] eqn:Ht.
  2:{ rewrite (process_change_skip j c); [now eexists | assumption.. |].
      now rewrite Ht. }
  destruct (comment_id (value c)) as [i|] eqn:Hi.
  2:{ rewrite (process_change_skip j c); [now eexists | assumption.. |].
      rewrite Ht, Hi. apply andb_false_r. }
  destruct (is_nonempty t) eqn:Hte.
  2:{ rewrite (process_change_skip j c); [now eexists | assumption.. |].
      now rewrite Ht, Hi, Hte. }
  destruct (is_nonempty i) eqn:Hie.
  2:{ rewrite (process_change_skip j c); [now eexists | assumption.. |].
      now rewrite Ht, Hi, Hte, Hie. }
  apply is_nonempty_true in Hte, Hie. simpl andb.
  destruct (keyword_match t) eqn:Hk.
  - rewrite (process_change_match j c t i) by assumption.
    destruct (sendPrivateReply_trace env api_version transport (VStr i)
                (h ++ [EConsole (LogKeywordFound (VStr t) (VStr i))]))
      as (tail & -> & Hfetch & Haw).
    eexists; split; [reflexivity|]. simpl. now rewrite Hfetch, Haw.
  - rewrite (process_change_no_keyword j c t i) by assumption. now exists [].
Qed.

(** A loop over elements that conform sends what its steps send, in
    order. *)
Lemma for_each_typed {A} (step : jsval -> M unit) (dec : jsval -> option A)
    (ids : A -> list string) :
  (forall j a, dec j = Some a -> dispatches_exactly request (step j) (ids a)) ->
  forall js l,
    decode_list dec js = Some l ->
    dispatches_exactly request (for_each step js) (flat_map ids l).
Proof.
  intros Hstep js; induction js as [|j js IH]; intros l Hl h; simpl in Hl.
  - injection Hl as <-. now exists [].
  - destruct (dec j) as [a|] eqn:Ea; [|discriminate].
    destruct (decode_list dec js) as [r|]; [|discriminate].
    injection Hl as <-. simpl for_each. unfold bind.
    destruct (Hstep j a Ea h) as (s1 & -> & Hf1 & Ha1).
    destruct (IH r eq_refl (h ++ s1)) as (s2 & -> & Hf2 & Ha2).
    exists (s1 ++ s2). split; [reflexivity|]. split.
    + simpl flat_map. now rewrite fetches_app, map_app, Hf1, Hf2.
    + now rewrite (awaited_app _ _ _ Ha1).
Qed.

Lemma process_entry_typed (j : jsval) (e : WebhookEntry) :
  decode_entry j = Some e ->
  dispatches_exactly request (entry_step j)
    (select actionable_match (changes_or_nil e)).
Proof.
  intros Hdec h. unfold process_entry, changes_or_nil.
  destruct (decode_entry_reads j e Hdec)
    as [(-> & ->) | (js & cs & -> & -> & Hjs)]; run_lift.
  - now exists [].
  - simpl nullish_default. unfold for_of. simpl iterate. run_lift.
    exact (for_each_typed _ _ _ process_change_typed js cs Hjs h).
Qed.

Lemma select_flat_map {A B C} (f : B -> option C) (g : A -> list B) (l : list A) :
  select f (flat_map g l) = flat_map (fun a => select f (g a)) l.
Proof.
  unfold select. induction l as [|a l IH]; simpl; [reflexivity|].
  now rewrite flat_map_app, IH.
Qed.

(** A body that conforms, for this handler, with the credential
    configured: the success acknowledgment, after one settled reply per
    actionable match. *)
Lemma POST_typed (req : NextRequest) (b : jsval) (p : WebhookPayload)
    (h : list event) :
  truthy (PAGE_ACCESS_TOKEN env) = true ->
  json req = Ok b ->
  decode_payload b = Some p ->
  object p = "instagram" ->
  exists s,
    POST env api_version transport req h = (Ok EVENT_RECEIVED, EReqJson :: s)
    /\ fetches s = map (fun i => request (VStr i)) (actionable_matches p)
    /\ awaited false s = true.
Proof.
  intros Htok Hj Hdec Hobj. rewrite POST_catch.
  rewrite (POST_try_parsed _ b) by assumption.
  destruct (decode_payload_reads b p Hdec) as [-> Hentry].
  rewrite Hobj, (proj2 (strict_eq_VStr _ _) eq_refl).
  unfold actionable_matches, changes_of.
  destruct Hentry as [(-> & ->) | (js & es & -> & -> & Hjs)].
  - simpl. now exists [].
  - unfold or_default. simpl truthy. cbv iota. unfold for_of. simpl iterate.
    run_lift.
    destruct (for_each_typed _ _ _ process_entry_typed js es Hjs (h ++ [EReqJson]))
      as (s & -> & Hf & Ha).
    exists s. rewrite select_flat_map. auto.
Qed.

End Processor.

(* ================================================================== *)
(** ** The acknowledgment does not depend on the network *)

Lemma same_result_bind {A B} (m1 m2 : M A) (f1 f2 : A -> M B) :
  same_result m1 m2 -> (forall a, same_result (f1 a) (f2 a)) ->
  same_result (bind m1 f1) (bind m2 f2).
Proof.
  intros Hm Hf h1 h2. unfold bind. specialize (Hm h1 h2).
  destruct (m1 h1) as [[a1|e1] s1], (m2 h2) as [[a2|e2] s2];
    simpl in Hm; try discriminate; injection Hm as ->; [|reflexivity].
  specialize (Hf a2 (h1 ++ s1) (h2 ++ s2)).
  now destruct (f1 a2 (h1 ++ s1)), (f2 a2 (h2 ++ s2)).
Qed.

Lemma same_result_try_catch {A} (m1 m2 : M A) (c1 c2 : exn -> M A) :
  same_result m1 m2 -> (forall e, same_result (c1 e) (c2 e)) ->
  same_result (try_catch m1 c1) (try_catch m2 c2).
Proof.
  intros Hm Hc h1 h2. unfold try_catch. specialize (Hm h1 h2).
  destruct (m1 h1) as [[a1|e1] s1], (m2 h2) as [[a2|e2] s2];
    simpl in Hm; try discriminate; injection Hm as ->; [reflexivity|].
  specialize (Hc e2 (h1 ++ s1) (h2 ++ s2)).
  now destruct (c1 e2 (h1 ++ s1)), (c2 e2 (h2 ++ s2)).
Qed.

Lemma same_result_lift {A} (r : result A) : same_result (lift r) (lift r).
Proof. now intros h1 h2. Qed.

Lemma same_result_ret {A} (a : A) : same_result (ret a) (ret a).
Proof. now intros h1 h2. Qed.

Lemma same_result_throw {A} (e : exn) : same_result (@throw A e) (throw e).
Proof. now intros h1 h2. Qed.

Lemma same_result_console (l : log_line) : same_result (console l) (console l).
Proof. now intros h1 h2. Qed.

Lemma same_result_emit (e : event) : same_result (emit e) (emit e).
Proof. now intros h1 h2. Qed.

Lemma same_result_for_each {A} (f1 f2 : A -> M unit) (l : list A) :
  (forall a, same_result (f1 a) (f2 a)) ->
  same_result (for_each f1 l) (for_each f2 l).
Proof.
  intros Hf. induction l as [|a l IH]; simpl.
  - apply same_result_ret.
  - apply same_result_bind; [apply Hf | intros _; exact IH].
Qed.

Lemma same_result_for_of (v : jsval) (f1 f2 : jsval -> M unit) :
  (forall a, same_result (f1 a) (f2 a)) ->
  same_result (for_of v f1) (for_of v f2).
Proof.
  intros Hf. unfold for_of. apply same_result_bind.
  - apply same_result_lift.
  - intros l. now apply same_result_for_each.
Qed.

Create HintDb same_result.
#[local] Hint Resolve same_result_lift same_result_ret same_result_throw
  same_result_console same_result_emit : same_result.

Section Network.

Variable env : Env.
Variable api_version : string.
Variables transport1 transport2 : Transport.

Lemma same_result_sendPrivateReply (commentId : jsval) :
  same_result (sendPrivateReply env api_version transport1 commentId)
              (sendPrivateReply env api_version transport2 commentId).
Proof. intros h1 h2. now rewrite !sendPrivateReply_run. Qed.

Lemma same_result_process_change (change : jsval) :
  same_result (process_change env api_version transport1 change)
              (process_change env api_version transport2 change).
Proof.
  unfold process_change.
  apply same_result_bind; [auto with same_result|]. intros field.
  destruct (strict_eq field (VStr "comments")); [|auto with same_result].
  apply same_result_bind; [auto with same_result|]. intros value.
  apply same_result_bind; [auto with same_result|]. intros rawText.
  apply same_result_bind; [auto with same_result|]. intros commentId.
  destruct (negb (truthy rawText) || negb (truthy commentId))%bool;
    [auto with same_result|].
  apply same_result_bind; [auto with same_result|]. intros normalizedText.
  destruct (includes normalizedText KEYWORD); [|auto with same_result].
  apply same_result_bind.
  - destruct (to_string_throws commentId); auto with same_result.
  - intros _. apply same_result_sendPrivateReply.
Qed.

Lemma same_result_process_entry (entry : jsval) :
  same_result (process_entry env api_version transport1 entry)
              (process_entry env api_version transport2 entry).
Proof.
  unfold process_entry.
  apply same_result_bind; [auto with same_result|]. intros changes.
  apply same_result_for_of, same_result_process_change.
Qed.

Lemma same_result_POST (req : NextRequest) :
  same_result (POST env api_version transport1 req)
              (POST env api_version transport2 req).
Proof.
  unfold POST. apply same_result_try_catch.
  - unfold POST_try. destruct (negb (truthy (PAGE_ACCESS_TOKEN env))).
    + apply same_result_bind; auto with same_result.
    + apply same_result_bind.
      * unfold req_json. apply same_result_bind; auto with same_result.
      * intros body. apply same_result_bind; [auto with same_result|].
        intros object.
        destruct (strict_eq object (VStr "instagram")); [|auto with same_result].
        apply same_result_bind; [auto with same_result|]. intros entry.
        apply same_result_bind; [|auto with same_result].
        apply same_result_for_of, same_result_process_entry.
  - intros e. apply same_result_bind; auto with same_result.
Qed.

End Network.

(* ================================================================== *)
(** ** Every response of POST *)

Section Responses.

Variable env : Env.
Variable api_version : string.
Variable transport : Transport.

(** [POST] always answers, and with one of its four responses; which one
    is decided by the credential guard, the parse and the [object] member. *)
Lemma POST_responses (req : NextRequest) (h : list event) :
  exists r s,
    POST env api_version transport req h = (Ok r, s)
    /\ ((truthy (PAGE_ACCESS_TOKEN env) = false
         /\ r = SERVER_CONFIG_ERROR /\ s = [EConsole LogMissingAccessToken])
        \/ (truthy (PAGE_ACCESS_TOKEN env) = true
            /\ (r = EVENT_RECEIVED \/ r = ERROR_HANDLED
                \/ (r = NOT_FOUND /\ s = [EReqJson]
                    /\ exists b o, json req = Ok b
                                   /\ get_prop b "object" = Ok o
                                   /\ o <> VStr "instagram")))).
Proof.
  rewrite POST_catch.
  destruct (truthy (PAGE_ACCESS_TOKEN env)) eqn:Htok.
  2:{ rewrite POST_try_unconfigured by assumption. eauto 8. }
  destruct (json req) as [b|e] eqn:Hj.
  2:{ rewrite (POST_try_unparsed _ _ _ _ e) by assumption. eauto 8. }
  rewrite (POST_try_parsed _ _ _ _ b) by assumption.
  destruct (get_prop b "object") as [o|e] eqn:Ho; [|eauto 8].
  destruct (strict_eq o (VStr "instagram")) eqn:Hs.
  - destruct (get_prop b "entry") as [en|e]; [|eauto 8].
    destruct (for_of _ _ _) as [[[]|e] s]; eauto 8.
  - do 2 eexists. split; [reflexivity|]. right. split; [reflexivity|].
    right; right. repeat split. exists b, o. repeat split; try assumption.
    intros ->. simpl in Hs. discriminate.
Qed.

End Responses.

(* ================================================================== *)
(** ** Small facts used below *)

Lemma access_token_guard_fails (env : Env) :
  truthy (PAGE_ACCESS_TOKEN env) = false <->
  META_PAGE_ACCESS_TOKEN env = None \/ META_PAGE_ACCESS_TOKEN env = Some "".
Proof.
  unfold PAGE_ACCESS_TOKEN. destruct (META_PAGE_ACCESS_TOKEN env) as [tok|]; simpl.
  - rewrite negb_false_iff, String.eqb_eq. split.
    + intros ->. now right.
    + intros [H|H]; [discriminate | now injection H].
  - split; auto.
Qed.

(** [searchParams.get] gives a string or [null], never [undefined]. *)
Lemma searchParams_get_cases (ps : list (string * string)) (name : string) :
  searchParams_get ps name = VNull \/ exists v, searchParams_get ps name = VStr v.
Proof.
  induction ps as [|[k v] ps IH]; simpl; [now left|].
  destruct (String.eqb k name); [right; now exists v | exact IH].
Qed.

(** [token === VERIFY_TOKEN] holds only of a supplied token and a
    configured secret that are the same string. *)
Lemma token_matches_secret (env : Env) (ps : list (string * string)) :
  strict_eq (searchParams_get ps "hub.verify_token") (VERIFY_TOKEN env) = true <->
  exists t, searchParams_get ps "hub.verify_token" = VStr t
            /\ META_VERIFY_TOKEN env = Some t.
Proof.
  unfold VERIFY_TOKEN.
  destruct (searchParams_get_cases ps "hub.verify_token") as [-> | [v ->]];
    destruct (META_VERIFY_TOKEN env) as [t|]; simpl.
  - split; [discriminate | intros (x & H & _); discriminate].
  - split; [discriminate | intros (x & H & _); discriminate].
  - rewrite String.eqb_eq. split.
    + intros ->. now exists t.
    + intros (x & [= ->] & [= ->]). reflexivity.
  - split; [discriminate | intros (x & _ & H); discriminate].
Qed.

Lemma for_each_absent_changes (env : Env) (api_version : string)
    (transport : Transport) (es : list jsval) (h : list event) :
  Forall (fun e => get_prop e "changes" = Ok VUndefined) es ->
  for_each (process_entry env api_version transport) es h = (Ok tt, []).
Proof.
  intros H; revert h; induction H as [|e es He _ IH]; intros h; [reflexivity|].
  simpl for_each. unfold bind. unfold process_entry at 1.
  rewrite He. run_lift. simpl. now rewrite IH.
Qed.

(* ================================================================== *)
(** ** The Subscription Verifier *)

(** C6 (as amended): for every verification request, if [hub.mode] is
    [subscribe] and the supplied token equals the configured verification
    secret, GET answers 200 with the challenge value as the body; for every
    other combination (wrong mode, wrong token, missing token) it answers
    403 with the fixed body [Forbidden], which differs from the challenge
    value unless the challenge is itself the string [Forbidden]. *)
Theorem GET_verification (env : Env) (req : NextRequest) (h : list event) :
  let mode := searchParams_get (searchParams req) "hub.mode" in
  let token := searchParams_get (searchParams req) "hub.verify_token" in
  let challenge := searchParams_get (searchParams req) "hub.challenge" in
  let accepted :=
    mode = VStr "subscribe"
    /\ exists t, token = VStr t /\ META_VERIFY_TOKEN env = Some t in
  (accepted ->
     GET env req h
     = (Ok (mkResponse (body_init challenge) 200), [EConsole LogWebhookVerified]))
  /\ (~ accepted ->
        GET env req h = (Ok (mkResponse (Some "Forbidden") 403), [])
        /\ (challenge <> VStr "Forbidden" -> body_init challenge <> Some "Forbidden")).
Proof.
  intros mode token challenge accepted. unfold GET.
  fold mode token challenge. split.
  - intros [Hm Ht]. apply token_matches_secret in Ht. fold token in Ht.
    rewrite (proj2 (strict_eq_VStr mode "subscribe") Hm), Ht. reflexivity.
  - intros Hn. split.
    + destruct (strict_eq mode (VStr "subscribe")) eqn:Em; [|reflexivity].
      destruct (strict_eq token (VERIFY_TOKEN env)) eqn:Et; [|reflexivity].
      exfalso. apply Hn. split.
      * now apply strict_eq_VStr.
      * now apply token_matches_secret.
    + intros Hc Hb. apply Hc. unfold challenge in *.
      destruct (searchParams_get_cases (searchParams req) "hub.challenge")
        as [E | [v E]]; rewrite E in *; simpl in Hb; congruence.
Qed.

(** C7: when the verification secret is not in the environment, every
    verification request is answered 403 [Forbidden], whatever its mode,
    token and challenge and also when it carries no token at all. *)
Theorem GET_fails_closed_without_secret
    (access_token : option string) (req : NextRequest) (h : list event) :
  GET (mkEnv None access_token) req h = (Ok FORBIDDEN, []).
Proof.
  unfold GET.
  destruct (strict_eq (searchParams_get (searchParams req) "hub.mode")
              (VStr "subscribe")); [|reflexivity].
  destruct (strict_eq _ _) eqn:E; [|reflexivity].
  apply token_matches_secret in E. destruct E as (t & _ & H). discriminate.
Qed.

(* ================================================================== *)
(** ** The Reply Dispatcher and the Event Processor *)

Section Claims.

Variable env : Env.
Variable api_version : string.
Variable transport : Transport.

#[local] Abbreviation send' := (sendPrivateReply env api_version transport).
#[local] Abbreviation request' := (reply_request env api_version).
#[local] Abbreviation change_step' := (process_change env api_version transport).
#[local] Abbreviation post := (POST env api_version transport).

(** C1: with the access credential configured, whenever the [try] block
    of POST throws (the body does not parse, the payload has an unexpected
    shape, or processing a comment throws), POST answers 200 with the body
    [Internal Server Error Handled], which differs from the body
    [EVENT_RECEIVED] of the normal acknowledgment; POST answers no 5xx.
    (A failure of the outbound call never reaches this [try] block: see
    [sendPrivateReply_run].) *)
Theorem POST_fault_is_handled (req : NextRequest) (h : list event) :
  truthy (PAGE_ACCESS_TOKEN env) = true ->
  (forall e s,
      POST_try env api_version transport req h = (Throw e, s) ->
      post req h = (Ok ERROR_HANDLED, s ++ [EConsole (LogCrash e)]))
  /\ (forall e,
         json req = Throw e ->
         post req h = (Ok ERROR_HANDLED, [EReqJson; EConsole (LogCrash e)]))
  /\ status ERROR_HANDLED = 200
  /\ body ERROR_HANDLED = Some "Internal Server Error Handled"
  /\ body ERROR_HANDLED <> body EVENT_RECEIVED
  /\ (forall r s, post req h = (Ok r, s) -> is_5xx r = false).
Proof.
  intros Htok. repeat split.
  - intros e s H. now rewrite POST_catch, H.
  - intros e H. now rewrite POST_catch, (POST_try_unparsed _ _ _ _ e).
  - discriminate.
  - intros r s H.
    destruct (POST_responses env api_version transport req h)
      as (r' & s' & E & [(Hno & _) | (_ & [-> | [-> | (-> & _)]])]).
    + congruence.
    + rewrite E in H. now injection H as <- _.
    + rewrite E in H. now injection H as <- _.
    + rewrite E in H. now injection H as <- _.
Qed.

(** C2 (as amended): for every batch with [object] equal to [instagram],
    the Reply Dispatcher is invoked exactly once for each change event that
    has [field] equal to [comments], [text] and [comment_id] present and
    not empty, and the keyword in its text whatever the letter case; the
    invocations come in batch order, each carries the fixed reply text,
    each has settled before the next event is processed, and the success
    acknowledgment is returned after all of them. *)
Theorem POST_dispatches_each_match
    (req : NextRequest) (b : jsval) (p : WebhookPayload) (h : list event) :
  truthy (PAGE_ACCESS_TOKEN env) = true ->
  json req = Ok b ->
  decode_payload b = Some p ->
  object p = "instagram" ->
  exists s,
    post req h = (Ok EVENT_RECEIVED, EReqJson :: s)
    /\ fetches s = map (fun i => request' (VStr i)) (actionable_matches p)
    /\ length (fetches s) = length (actionable_matches p)
    /\ map (fun r => recipient_comment_id (fetch_body r)) (fetches s)
       = map VStr (actionable_matches p)
    /\ Forall (fun r => message_text (fetch_body r) = REPLY_TEXT) (fetches s)
    /\ awaited false s = true.
Proof.
  intros Htok Hj Hdec Hobj.
  destruct (POST_typed env api_version transport req b p h Htok Hj Hdec Hobj)
    as (s & E & Hf & Ha).
  exists s. rewrite Hf. repeat split; try assumption.
  - now rewrite length_map.
  - now rewrite map_map.
  - apply Forall_forall. intros r Hr. apply in_map_iff in Hr.
    now destruct Hr as (i & <- & _).
Qed.

(** C3 (as amended): when the access credential is absent or empty, POST
    answers 500 [Server Config Error] without reading the request body and
    without any dispatch; and a response of POST that is not 2xx is either
    that one, with the credential absent or empty, or the 404 given to a
    parsed body whose [object] is not [instagram]. *)
Theorem POST_without_credential (req : NextRequest) (h : list event) :
  (META_PAGE_ACCESS_TOKEN env = None \/ META_PAGE_ACCESS_TOKEN env = Some "" ->
   exists s,
     post req h = (Ok SERVER_CONFIG_ERROR, s)
     /\ status SERVER_CONFIG_ERROR = 500
     /\ body SERVER_CONFIG_ERROR = Some "Server Config Error"
     /\ body_read s = false /\ fetches s = [])
  /\ (forall r s,
         post req h = (Ok r, s) -> is_2xx r = false ->
         (r = SERVER_CONFIG_ERROR
          /\ (META_PAGE_ACCESS_TOKEN env = None
              \/ META_PAGE_ACCESS_TOKEN env = Some ""))
         \/ (r = NOT_FOUND
             /\ exists b o, json req = Ok b /\ get_prop b "object" = Ok o
                            /\ o <> VStr "instagram")).
Proof.
  split.
  - intros H. apply access_token_guard_fails in H.
    exists [EConsole LogMissingAccessToken].
    rewrite POST_catch, POST_try_unconfigured by assumption. now repeat split.
  - intros r s E Hr.
    destruct (POST_responses env api_version transport req h)
      as (r' & s' & E' & H). rewrite E in E'. injection E' as <- <-.
    destruct H as [(Hno & -> & _) | (_ & [-> | [-> | (-> & _ & Hb)]])].
    + left. split; [reflexivity|]. now apply access_token_guard_fails.
    + discriminate.
    + discriminate.
    + now right.
Qed.

(** C4: with the access credential configured, a body that parses and
    whose [object] is not [instagram] is answered 404 [Not Found], and the
    Reply Dispatcher is not invoked. *)
Theorem POST_other_object_not_found
    (req : NextRequest) (b o : jsval) (h : list event) :
  truthy (PAGE_ACCESS_TOKEN env) = true ->
  json req = Ok b ->
  get_prop b "object" = Ok o ->
  o <> VStr "instagram" ->
  exists s,
    post req h = (Ok NOT_FOUND, s)
    /\ status NOT_FOUND = 404 /\ body NOT_FOUND = Some "Not Found"
    /\ fetches s = [].
Proof.
  intros Htok Hj Ho Hne. exists [EReqJson].
  rewrite POST_catch, (POST_try_parsed _ _ _ _ b) by assumption.
  rewrite Ho, (strict_eq_VStr_false _ _ Hne). now repeat split.
Qed.

(** C5 (as amended): the keyword test is a case-insensitive substring
    match for [roadmap]; for any comment event whose [comment_id] is
    present and not empty, the texts [Roadmap?], [ROADMAP please] and
    [see the roadmapping doc] each trigger a dispatch, and [road map]
    triggers none. *)
Theorem keyword_test_examples
    (j : jsval) (c : WebhookChange) (i : string) (h : list event) :
  decode_change j = Some c ->
  field c = "comments" ->
  comment_id (value c) = Some i ->
  i <> "" ->
  (forall t,
      In t ["Roadmap?"; "ROADMAP please"; "see the roadmapping doc"] ->
      text (value c) = Some t ->
      exists tail,
        change_step' j h
        = (Ok tt,
           EConsole (LogKeywordFound (VStr t) (VStr i))
           :: EFetch (request' (VStr i)) :: tail)
        /\ fetches tail = [])
  /\ (text (value c) = Some "road map" -> change_step' j h = (Ok tt, []))
  /\ (forall t,
         keyword_match t = true <->
         exists pre mid post,
           t = (pre ++ mid ++ post)%string /\ toLowerCase mid = "roadmap").
Proof.
  intros Hdec Hf Hi Hne. split; [|split].
  - intros t Hin Ht.
    assert (Hk : keyword_match t = true /\ t <> "").
    { simpl in Hin. destruct Hin as [<- | [<- | [<- | []]]];
        (split; [reflexivity | discriminate]). }
    destruct Hk as [Hk Hte].
    rewrite (process_change_match env api_version transport j c t i) by assumption.
    destruct (sendPrivateReply_trace env api_version transport (VStr i)
                (h ++ [EConsole (LogKeywordFound (VStr t) (VStr i))]))
      as (tail & -> & Hfetch & _).
    now exists tail.
  - intros Ht.
    now apply (process_change_no_keyword env api_version transport j c "road map" i).
  - exact keyword_match_spec.
Qed.

(** C8: [sendPrivateReply] returns normally whatever the outbound call
    does: an error object in the response, a rejected [fetch] and a
    response that is not JSON are each logged and nothing is thrown or
    returned to the caller; so the response of POST is the same on every
    network. *)
Theorem sendPrivateReply_never_throws (commentId : jsval) (h : list event) :
  (exists s, send' commentId h = (Ok tt, s))
  /\ (forall data err,
         transport h (request' commentId) = FetchResolves (Json data) ->
         get_prop data "error" = Ok err -> truthy err = true ->
         send' commentId h
         = (Ok tt, [EFetch (request' commentId); EResponseJson;
                    EConsole (LogMetaApiError err)]))
  /\ (forall e,
         transport h (request' commentId) = FetchRejects e ->
         send' commentId h
         = (Ok tt, [EFetch (request' commentId);
                    EConsole (LogNetworkFetchError e)]))
  /\ (forall e,
         transport h (request' commentId) = FetchResolves (NotJson e) ->
         send' commentId h
         = (Ok tt, [EFetch (request' commentId); EResponseJson;
                    EConsole (LogNetworkFetchError e)]))
  /\ (forall other_transport req h1 h2,
         fst (post req h1) = fst (POST env api_version other_transport req h2)).
Proof.
  rewrite sendPrivateReply_run. repeat split.
  - eauto.
  - intros data err -> -> ->. reflexivity.
  - intros e ->. reflexivity.
  - intros e ->. reflexivity.
  - intros other req h1 h2. apply same_result_POST.
Qed.

(** C9: with the access credential configured, a batch with [object]
    equal to [instagram] whose [entry] is absent, or all of whose entries
    have no [changes], is answered 200 [EVENT_RECEIVED] with no dispatch. *)
Theorem POST_nothing_to_process (req : NextRequest) (b : jsval) (h : list event) :
  truthy (PAGE_ACCESS_TOKEN env) = true ->
  json req = Ok b ->
  get_prop b "object" = Ok (VStr "instagram") ->
  (get_prop b "entry" = Ok VUndefined
   \/ exists es, get_prop b "entry" = Ok (VArr es)
                 /\ Forall (fun e => get_prop e "changes" = Ok VUndefined) es) ->
  exists s,
    post req h = (Ok EVENT_RECEIVED, s)
    /\ status EVENT_RECEIVED = 200
    /\ body EVENT_RECEIVED = Some "EVENT_RECEIVED"
    /\ fetches s = [].
Proof.
  intros Htok Hj Ho He. exists [EReqJson].
  rewrite POST_catch, (POST_try_parsed _ _ _ _ b) by assumption.
  rewrite Ho. rewrite (proj2 (strict_eq_VStr _ _) eq_refl).
  destruct He as [-> | (es & -> & Hes)].
  - now repeat split.
  - unfold or_default, for_of. simpl truthy. cbv iota. simpl iterate. run_lift.
    rewrite for_each_absent_changes by assumption. now repeat split.
Qed.

(** C10: a comment event whose [comment_id] is the empty string, or whose
    [text] is the empty string, is handled like one where that member is
    absent: it is skipped with the skip line and no dispatch, the loop goes
    on to the events after it, and the batch is still answered with the
    success acknowledgment. *)
Theorem empty_string_is_skipped (j : jsval) (c : WebhookChange) :
  decode_change j = Some c ->
  field c = "comments" ->
  (comment_id (value c) = Some "" \/ text (value c) = Some "") ->
  (forall h, change_step' j h = (Ok tt, [EConsole LogSkippingComment]))
  /\ actionable_match c = None
  /\ (forall j' c' h,
         decode_change j' = Some c' ->
         field c' = "comments" ->
         (comment_id (value c') = None \/ text (value c') = None) ->
         change_step' j' h = change_step' j h)
  /\ (forall rest h,
         for_each change_step' (j :: rest) h
         = (fst (for_each change_step' rest (h ++ [EConsole LogSkippingComment])),
            EConsole LogSkippingComment
            :: snd (for_each change_step' rest (h ++ [EConsole LogSkippingComment]))))
  /\ (forall req b p h,
         truthy (PAGE_ACCESS_TOKEN env) = true ->
         json req = Ok b ->
         decode_payload b = Some p ->
         object p = "instagram" ->
         In c (changes_of p) ->
         exists s,
           post req h = (Ok EVENT_RECEIVED, EReqJson :: s)
           /\ fetches s = map (fun i => request' (VStr i)) (actionable_matches p)).
Proof.
  intros Hdec Hf He.
  assert (Hskip : forall h,
             change_step' j h = (Ok tt, [EConsole LogSkippingComment])).
  { intros h. apply (process_change_skip _ _ _ j c); [assumption..|].
    destruct He as [-> | ->]; [|reflexivity].
    now destruct (text (value c)) as [t|]; [apply andb_false_r|]. }
  split; [exact Hskip|]. split; [|split; [|split]].
  - unfold actionable_match. rewrite Hf. simpl String.eqb.
    destruct He as [-> | ->].
    + destruct (text (value c)) as [t|]; [|reflexivity].
      now rewrite andb_false_r.
    + now destruct (comment_id (value c)).
  - intros j' c' h Hdec' Hf' He'. rewrite Hskip.
    apply (process_change_skip _ _ _ j' c'); [assumption..|].
    destruct He' as [-> | ->]; [|reflexivity].
    now destruct (text (value c')) as [t|]; [apply andb_false_r|].
  - intros rest h. simpl for_each. unfold bind. rewrite Hskip.
    now destruct (for_each _ rest _).
  - intros req b p h Htok Hj Hdecp Hobj _.
    destruct (POST_typed env api_version transport req b p h Htok Hj Hdecp Hobj)
      as (s & E & Hfetch & _).
    now exists s.
Qed.

End Claims.

(* ================================================================== *)
(** ** The claims on the sample inputs *)

(** A body that does not parse, and an entry that is [null], both end in
    the handled-error response. *)
Example POST_unparsable_body :
  POST Samples.env "v21.0" Samples.net_ok Samples.unparsable_request []
  = (Ok ERROR_HANDLED, [EReqJson; EConsole (LogCrash SyntaxError)]).
Proof. reflexivity. Qed.

Example POST_null_entry :
  POST Samples.env "v21.0" Samples.net_ok
    (mkRequest [] (Ok (VObj [("object", VStr "instagram");
                             ("entry", VArr [VNull])]))) []
  = (Ok ERROR_HANDLED, [EReqJson; EConsole (LogCrash TypeError)]).
Proof. reflexivity. Qed.

Example mixed_body_conforms :
  decode_payload Samples.mixed_body = Some Samples.mixed_body_typed.
Proof. reflexivity. Qed.

(** A comment whose text is a number makes [toLowerCase] throw; the
    handler answers 200 with the handled-error body. *)
Lemma POST_fault_is_handled_witness :
  POST Samples.env "v21.0" Samples.net_ok Samples.numeric_text_request []
  = (Ok ERROR_HANDLED, [EReqJson; EConsole (LogCrash TypeError)]).
Proof.
  apply (proj1 (POST_fault_is_handled Samples.env "v21.0" Samples.net_ok
                  Samples.numeric_text_request [] eq_refl)
           TypeError [EReqJson]).
  reflexivity.
Defined.

(** The mixed batch, as it arrives, sends two replies, to [c1] and then
    [c5], on a network where both calls fail. *)
Lemma POST_dispatches_each_match_witness :
  exists s,
    POST Samples.env "v24.0" Samples.net_failing
      (mkRequest [] (Ok Samples.mixed_body)) []
    = (Ok EVENT_RECEIVED, EReqJson :: s)
    /\ fetches s
       = map (fun i => reply_request Samples.env "v24.0" (VStr i)) ["c1"; "c5"]
    /\ length (fetches s) = 2%nat
    /\ map (fun r => recipient_comment_id (fetch_body r)) (fetches s)
       = [VStr "c1"; VStr "c5"]
    /\ Forall (fun r => message_text (fetch_body r) = REPLY_TEXT) (fetches s)
    /\ awaited false s = true.
Proof.
  exact (POST_dispatches_each_match Samples.env "v24.0" Samples.net_failing
           (mkRequest [] (Ok Samples.mixed_body)) Samples.mixed_body
           Samples.mixed_body_typed [] eq_refl eq_refl eq_refl eq_refl).
Defined.

(** As worded, the comment with the empty [comment_id] is a match (both
    members are present and the text holds the keyword), and the handler
    sends nothing for it. *)
Lemma POST_dispatches_each_match_counterexample :
  let run := POST Samples.env "v21.0" Samples.net_ok
               (request_of Samples.empty_id_batch) [] in
  object Samples.empty_id_batch = "instagram"
  /\ worded_matches Samples.empty_id_batch = [""]
  /\ run = (Ok EVENT_RECEIVED, [EReqJson; EConsole LogSkippingComment])
  /\ length (worded_matches Samples.empty_id_batch) = 1%nat
  /\ length (fetches (snd run)) = 0%nat.
Proof. repeat split. Qed.

Lemma POST_without_credential_witness :
  exists s,
    POST Samples.env_no_access_token "v21.0" Samples.net_ok
      (request_of Samples.mixed_batch) []
    = (Ok SERVER_CONFIG_ERROR, s)
    /\ status SERVER_CONFIG_ERROR = 500
    /\ body SERVER_CONFIG_ERROR = Some "Server Config Error"
    /\ body_read s = false /\ fetches s = [].
Proof.
  apply (proj1 (POST_without_credential Samples.env_no_access_token "v21.0"
                  Samples.net_ok (request_of Samples.mixed_batch) [])).
  left. reflexivity.
Defined.

(** The credential is in the environment, as the empty string, and the
    answer is the 500 all the same: a response that is not 2xx, with the
    credential not absent, and not the 404. *)
Lemma POST_without_credential_counterexample :
  let run := POST Samples.env_empty_access_token "v21.0" Samples.net_ok
               (request_of Samples.mixed_batch) [] in
  META_PAGE_ACCESS_TOKEN Samples.env_empty_access_token = Some ""
  /\ META_PAGE_ACCESS_TOKEN Samples.env_empty_access_token <> None
  /\ run = (Ok SERVER_CONFIG_ERROR, [EConsole LogMissingAccessToken])
  /\ status SERVER_CONFIG_ERROR = 500
  /\ is_2xx SERVER_CONFIG_ERROR = false
  /\ SERVER_CONFIG_ERROR <> NOT_FOUND.
Proof. repeat split; discriminate. Qed.

Lemma POST_other_object_not_found_witness :
  exists s,
    POST Samples.env "v21.0" Samples.net_ok (request_of Samples.page_batch) []
    = (Ok NOT_FOUND, s)
    /\ status NOT_FOUND = 404 /\ body NOT_FOUND = Some "Not Found"
    /\ fetches s = [].
Proof.
  apply (POST_other_object_not_found Samples.env "v21.0" Samples.net_ok
           (request_of Samples.page_batch)
           (encode_payload Samples.page_batch) (VStr "page") []).
  - reflexivity.
  - reflexivity.
  - reflexivity.
  - discriminate.
Defined.

Lemma keyword_test_examples_witness :
  exists tail,
    process_change Samples.env "v21.0" Samples.net_ok
      (encode_change (Samples.comment (Some "ROADMAP please") (Some "c1"))) []
    = (Ok tt,
       EConsole (LogKeywordFound (VStr "ROADMAP please") (VStr "c1"))
       :: EFetch (reply_request Samples.env "v21.0" (VStr "c1")) :: tail)
    /\ fetches tail = [].
Proof.
  apply (proj1 (keyword_test_examples Samples.env "v21.0" Samples.net_ok
                  (encode_change (Samples.comment (Some "ROADMAP please") (Some "c1")))
                  (Samples.comment (Some "ROADMAP please") (Some "c1")) "c1" []
                  eq_refl eq_refl eq_refl ltac:(discriminate))
           "ROADMAP please").
  - simpl. right. left. reflexivity.
  - reflexivity.
Defined.

(** With [comment_id] present and empty, the text [Roadmap?] passes the
    keyword test and triggers no dispatch. *)
Lemma keyword_test_examples_counterexample :
  let c := Samples.comment (Some "Roadmap?") (Some "") in
  let run := process_change Samples.env "v21.0" Samples.net_ok
               (encode_change c) [] in
  field c = "comments"
  /\ text (value c) = Some "Roadmap?"
  /\ comment_id (value c) = Some ""
  /\ keyword_match "Roadmap?" = true
  /\ run = (Ok tt, [EConsole LogSkippingComment])
  /\ fetches (snd run) = [].
Proof. repeat split. Qed.

Lemma GET_verification_witness :
  GET Samples.env
    (Samples.verification
       [("hub.mode", "subscribe"); ("hub.verify_token", "verify-me");
        ("hub.challenge", "1158201444")]) []
  = (Ok (mkResponse (Some "1158201444") 200), [EConsole LogWebhookVerified]).
Proof.
  apply (proj1 (GET_verification Samples.env
                  (Samples.verification
                     [("hub.mode", "subscribe"); ("hub.verify_token", "verify-me");
                      ("hub.challenge", "1158201444")]) [])).
  split; [reflexivity|]. exists "verify-me". split; reflexivity.
Defined.

(** A refused request whose challenge is the string [Forbidden] gets a
    body equal to its challenge value. *)
Lemma GET_verification_counterexample :
  let req := Samples.verification
               [("hub.mode", "subscribe"); ("hub.verify_token", "wrong");
                ("hub.challenge", "Forbidden")] in
  let challenge := searchParams_get (searchParams req) "hub.challenge" in
  exists r,
    GET Samples.env req [] = (Ok r, [])
    /\ status r = 403
    /\ body r = Some "Forbidden"
    /\ body r = body_init challenge.
Proof. eexists. repeat split. Qed.

Lemma sendPrivateReply_never_throws_witness :
  sendPrivateReply Samples.env "v21.0" Samples.net_failing (VStr "c1") []
  = (Ok tt,
     [EFetch (reply_request Samples.env "v21.0" (VStr "c1")); EResponseJson;
      EConsole (LogMetaApiError (VObj [("code", VNum 190%float)]))]).
Proof.
  apply (proj1 (proj2 (sendPrivateReply_never_throws Samples.env "v21.0"
                         Samples.net_failing (VStr "c1") []))
           (VObj [("error", VObj [("code", VNum 190%float)])])
           (VObj [("code", VNum 190%float)])).
  - reflexivity.
  - reflexivity.
  - reflexivity.
Defined.

Lemma POST_nothing_to_process_witness :
  exists s,
    POST Samples.env "v21.0" Samples.net_ok
      (request_of Samples.heartbeat_batch) []
    = (Ok EVENT_RECEIVED, s)
    /\ status EVENT_RECEIVED = 200
    /\ body EVENT_RECEIVED = Some "EVENT_RECEIVED"
    /\ fetches s = [].
Proof.
  apply (POST_nothing_to_process Samples.env "v21.0" Samples.net_ok
           (request_of Samples.heartbeat_batch)
           (encode_payload Samples.heartbeat_batch) []).
  - reflexivity.
  - reflexivity.
  - reflexivity.
  - right. eexists. split; [reflexivity|]. repeat constructor.
Defined.

(** The comment with the empty [comment_id] is skipped and the one after
    it is answered. *)
Lemma empty_string_is_skipped_witness :
  process_change Samples.env "v21.0" Samples.net_ok
    (encode_change (Samples.comment (Some "roadmap") (Some ""))) []
  = (Ok tt, [EConsole LogSkippingComment])
  /\ exists s,
       POST Samples.env "v21.0" Samples.net_ok
         (request_of Samples.empty_id_then_match) []
       = (Ok EVENT_RECEIVED, EReqJson :: s)
       /\ fetches s = [reply_request Samples.env "v21.0" (VStr "c9")].
Proof.
  pose proof (empty_string_is_skipped Samples.env "v21.0" Samples.net_ok
                (encode_change (Samples.comment (Some "roadmap") (Some "")))
                (Samples.comment (Some "roadmap") (Some ""))
                eq_refl eq_refl (or_introl eq_refl))
    as (Hskip & _ & _ & _ & Hpost).
  split.
  - exact (Hskip []).
  - apply (Hpost (request_of Samples.empty_id_then_match)
             (encode_payload Samples.empty_id_then_match)
             Samples.empty_id_then_match []).
    + reflexivity.
    + reflexivity.
    + reflexivity.
    + reflexivity.
    + simpl. left. reflexivity.
Defined.

(* ================================================================== *)
(** ** Beyond the claims: what every run of the handlers keeps *)

Lemma orderly_nil (env : Env) (api_version : string) : orderly env api_version [].
Proof. split; [reflexivity | constructor]. Qed.

Lemma orderly_app (env : Env) (api_version : string) (s1 s2 : list event) :
  orderly env api_version s1 -> orderly env api_version s2 ->
  orderly env api_version (s1 ++ s2).
Proof.
  intros [A1 F1] [A2 F2]. split.
  - now rewrite (awaited_app _ _ _ A1).
  - rewrite fetches_app. apply Forall_app. now split.
Qed.

Lemma orderly_bind {A B} (env : Env) (api_version : string)
    (m : M A) (f : A -> M B) :
  (forall h, orderly env api_version (snd (m h))) ->
  (forall a h, orderly env api_version (snd (f a h))) ->
  forall h, orderly env api_version (snd (bind m f h)).
Proof.
  intros Hm Hf h. unfold bind. specialize (Hm h).
  destruct (m h) as [[a|e] s1]; simpl in *; [|assumption].
  specialize (Hf a (h ++ s1)). destruct (f a (h ++ s1)) as [r s2].
  now apply orderly_app.
Qed.

Lemma orderly_try_catch {A} (env : Env) (api_version : string)
    (m : M A) (c : exn -> M A) :
  (forall h, orderly env api_version (snd (m h))) ->
  (forall e h, orderly env api_version (snd (c e h))) ->
  forall h, orderly env api_version (snd (try_catch m c h)).
Proof.
  intros Hm Hc h. unfold try_catch. specialize (Hm h).
  destruct (m h) as [[a|e] s1]; simpl in *; [assumption|].
  specialize (Hc e (h ++ s1)). destruct (c e (h ++ s1)) as [r s2].
  now apply orderly_app.
Qed.

Lemma orderly_lift {A} (env : Env) (api_version : string) (r : result A)
    (h : list event) :
  orderly env api_version (snd (lift r h)).
Proof. apply orderly_nil. Qed.

Lemma orderly_for_each {A} (env : Env) (api_version : string)
    (f : A -> M unit) (l : list A) :
  (forall a h, orderly env api_version (snd (f a h))) ->
  forall h, orderly env api_version (snd (for_each f l h)).
Proof.
  intros Hf. induction l as [|a l IH]; simpl.
  - intros h. apply orderly_nil.
  - apply orderly_bind; [apply Hf | intros _; exact IH].
Qed.

Lemma orderly_for_of (env : Env) (api_version : string)
    (v : jsval) (f : jsval -> M unit) :
  (forall a h, orderly env api_version (snd (f a h))) ->
  forall h, orderly env api_version (snd (for_of v f h)).
Proof.
  intros Hf. unfold for_of. apply orderly_bind.
  - intros h. apply orderly_lift.
  - intros l. now apply orderly_for_each.
Qed.

Lemma orderly_console (env : Env) (api_version : string) (l : log_line)
    (h : list event) :
  settles l = false -> orderly env api_version (snd (console l h)).
Proof.
  intros H. split; simpl; [now rewrite H | constructor].
Qed.

Section Orderly.

Variable env : Env.
Variable api_version : string.
Variable transport : Transport.

Lemma orderly_sendPrivateReply (commentId : jsval) (h : list event) :
  orderly env api_version
    (snd (sendPrivateReply env api_version transport commentId h)).
Proof.
  destruct (sendPrivateReply_trace env api_version transport commentId h)
    as (tail & -> & Hf & Ha).
  split; simpl; [exact Ha|]. rewrite Hf. now repeat constructor.
Qed.

Lemma orderly_process_change (change : jsval) (h : list event) :
  orderly env api_version
    (snd (process_change env api_version transport change h)).
Proof.
  revert h. unfold process_change.
  apply orderly_bind; [intros; apply orderly_lift|]. intros field.
  destruct (strict_eq field (VStr "comments")); [|intros; apply orderly_nil].
  apply orderly_bind; [intros; apply orderly_lift|]. intros value.
  apply orderly_bind; [intros; apply orderly_lift|]. intros rawText.
  apply orderly_bind; [intros; apply orderly_lift|]. intros commentId.
  destruct (negb (truthy rawText) || negb (truthy commentId))%bool.
  { intros h. now apply orderly_console. }
  apply orderly_bind; [intros; apply orderly_lift|]. intros normalizedText.
  destruct (includes normalizedText KEYWORD); [|intros; apply orderly_nil].
  apply orderly_bind.
  - destruct (to_string_throws commentId); intros h.
    + apply orderly_nil.
    + now apply orderly_console.
  - intros _. apply orderly_sendPrivateReply.
Qed.

Lemma orderly_process_entry (entry : jsval) (h : list event) :
  orderly env api_version
    (snd (process_entry env api_version transport entry h)).
Proof.
  revert h. unfold process_entry.
  apply orderly_bind; [intros; apply orderly_lift|]. intros changes.
  apply orderly_for_of. exact orderly_process_change.
Qed.

Lemma orderly_POST (req : NextRequest) (h : list event) :
  orderly env api_version (snd (POST env api_version transport req h)).
Proof.
  revert h. unfold POST. apply orderly_try_catch.
  - unfold POST_try. destruct (negb (truthy (PAGE_ACCESS_TOKEN env))).
    + apply orderly_bind; [intros h; now apply orderly_console|].
      intros _ h. apply orderly_nil.
    + apply orderly_bind.
      * unfold req_json. apply orderly_bind.
        -- intros h. split; [reflexivity | constructor].
        -- intros _ h. apply orderly_lift.
      * intros body. apply orderly_bind; [intros; apply orderly_lift|].
        intros object.
        destruct (strict_eq object (VStr "instagram")); [|intros; apply orderly_nil].
        apply orderly_bind; [intros; apply orderly_lift|]. intros entry.
        apply orderly_bind; [|intros _ h; apply orderly_nil].
        apply orderly_for_of. exact orderly_process_entry.
  - intros e. apply orderly_bind; [intros h; now apply orderly_console|].
    intros _ h. apply orderly_nil.
Qed.

End Orderly.

(* ================================================================== *)
(** ** Helpers for the properties below *)



Lemma searchParams_get_absent (ps : list (string * string)) (name : string) :
  has_param ps name = false -> searchParams_get ps name = VNull.
Proof.
  induction ps as [|[k v] ps IH]; simpl; [reflexivity|].
  destruct (String.eqb k name); [discriminate | exact IH].
Qed.


Lemma for_each_silent {A} (f : A -> M unit) (l : list A) (h : list event) :
  Forall (fun a => forall h', f a h' = (Ok tt, [])) l ->
  for_each f l h = (Ok tt, []).
Proof.
  intros H; revert h; induction H as [|a l Ha _ IH]; intros h; [reflexivity|].
  simpl. unfold bind. rewrite Ha. simpl. now rewrite IH.
Qed.

Lemma select_repeat {A B} (f : A -> option B) (a : A) (b : B) (n : nat) :
  f a = Some b -> select f (repeat a n) = repeat b n.
Proof.
  intros H. unfold select. induction n as [|n IH]; simpl; [reflexivity|].
  now rewrite H, IH.
Qed.

(** The response does not depend on the API version either. *)
Lemma same_result_sendPrivateReply_versions
    (env : Env) (api1 api2 : string) (t1 t2 : Transport) (commentId : jsval) :
  same_result (sendPrivateReply env api1 t1 commentId)
              (sendPrivateReply env api2 t2 commentId).
Proof. intros h1 h2. now rewrite !sendPrivateReply_run. Qed.

Lemma same_result_process_change_versions
    (env : Env) (api1 api2 : string) (t1 t2 : Transport) (change : jsval) :
  same_result (process_change env api1 t1 change)
              (process_change env api2 t2 change).
Proof.
  unfold process_change.
  apply same_result_bind; [apply same_result_lift|]. intros field.
  destruct (strict_eq field (VStr "comments")); [|apply same_result_ret].
  apply same_result_bind; [apply same_result_lift|]. intros value.
  apply same_result_bind; [apply same_result_lift|]. intros rawText.
  apply same_result_bind; [apply same_result_lift|]. intros commentId.
  destruct (negb (truthy rawText) || negb (truthy commentId))%bool;
    [apply same_result_console|].
  apply same_result_bind; [apply same_result_lift|]. intros normalizedText.
  destruct (includes normalizedText KEYWORD); [|apply same_result_ret].
  apply same_result_bind.
  - destruct (to_string_throws commentId);
      [apply same_result_throw | apply same_result_console].
  - intros _. apply same_result_sendPrivateReply_versions.
Qed.

Lemma same_result_POST_versions
    (env : Env) (api1 api2 : string) (t1 t2 : Transport) (req : NextRequest) :
  same_result (POST env api1 t1 req) (POST env api2 t2 req).
Proof.
  unfold POST. apply same_result_try_catch.
  - unfold POST_try. destruct (negb (truthy (PAGE_ACCESS_TOKEN env))).
    + apply same_result_bind; [apply same_result_console|].
      intros _. apply same_result_ret.
    + apply same_result_bind.
      * unfold req_json. apply same_result_bind; [apply same_result_emit|].
        intros _. apply same_result_lift.
      * intros body. apply same_result_bind; [apply same_result_lift|].
        intros object.
        destruct (strict_eq object (VStr "instagram")); [|apply same_result_ret].
        apply same_result_bind; [apply same_result_lift|]. intros entry.
        apply same_result_bind; [|intros _; apply same_result_ret].
        apply same_result_for_of. intros e. unfold process_entry.
        apply same_result_bind; [apply same_result_lift|]. intros changes.
        apply same_result_for_of, same_result_process_change_versions.
  - intros e. apply same_result_bind; [apply same_result_console|].
    intros _. apply same_result_ret.
Qed.

(* ================================================================== *)
(** ** Beyond the claims: the Reply Dispatcher *)

Section MoreDispatcher.

Variable env : Env.
Variable api_version : string.
Variable transport : Transport.

#[local] Abbreviation send_ := (sendPrivateReply env api_version transport).
#[local] Abbreviation request_ := (reply_request env api_version).
#[local] Abbreviation change_step_ := (process_change env api_version transport).
#[local] Abbreviation entry_step_ := (process_entry env api_version transport).
#[local] Abbreviation post_ := (POST env api_version transport).

(** X1: one call of [sendPrivateReply] makes exactly one outbound call,
    the private reply to its comment, however that call ends: a failed
    call is not retried. *)
Theorem sendPrivateReply_one_call (commentId : jsval) (h : list event) :
  fetches (snd (send_ commentId h)) = [request_ commentId].
Proof.
  destruct (sendPrivateReply_trace env api_version transport commentId h)
    as (tail & -> & Hf & _).
  simpl. now rewrite Hf.
Qed.

(** X2: [sendPrivateReply] logs the success line exactly when the call
    resolved to JSON data that is not [null] and whose [error] member is
    missing or falsy; an [error] of [0], [false] or the empty string
    counts as success, and a [null] answer as a failure. *)
Theorem dm_sent_logged_iff (commentId : jsval) (h : list event) :
  In (EConsole LogDmSent) (snd (send_ commentId h)) <->
  exists data err,
    transport h (request_ commentId) = FetchResolves (Json data)
    /\ get_prop data "error" = Ok err
    /\ truthy err = false.
Proof.
  rewrite sendPrivateReply_run. simpl.
  destruct (transport h (request_ commentId)) as [e | [e | data]]; simpl.
  - split.
    + intros [H | [H | []]]; discriminate.
    + intros (d & err & H & _); discriminate.
  - split.
    + intros [H | [H | [H | []]]]; discriminate.
    + intros (d & err & H & _); discriminate.
  - destruct (get_prop data "error") as [err | e] eqn:Eg.
    + destruct (truthy err) eqn:Et; split.
      * intros [H | [H | [H | []]]]; discriminate.
      * intros (d & err' & [= <-] & Herr & Hf). rewrite Eg in Herr.
        injection Herr as <-. congruence.
      * intros _. now exists data, err.
      * intros _. auto.
    + split.
      * intros [H | [H | [H | []]]]; discriminate.
      * intros (d & err' & [= <-] & Herr & _). congruence.
Qed.

(* ================================================================== *)
(** ** Beyond the claims: one change event, whatever its shape *)

(** X3: the presence check comes before anything is done with the two
    members: a comment event whose [text] or [comment_id] is falsy
    (missing, [null], [false], [0], empty) is skipped with the skip line,
    whatever the type of the other member, and does not fault. *)
Theorem skip_guard_comes_first
    (change value rawText commentId : jsval) (h : list event) :
  get_prop change "field" = Ok (VStr "comments") ->
  get_prop change "value" = Ok value ->
  get_prop value "text" = Ok rawText ->
  get_prop value "comment_id" = Ok commentId ->
  (truthy rawText && truthy commentId = false)%bool ->
  change_step_ change h = (Ok tt, [EConsole LogSkippingComment]).
Proof.
  intros Hf Hv Ht Hc Hfalsy. unfold process_change.
  rewrite Hf. run_lift. rewrite (proj2 (strict_eq_VStr _ _) eq_refl).
  rewrite Hv. run_lift. rewrite Ht. run_lift. rewrite Hc. run_lift.
  destruct (truthy rawText), (truthy commentId); try discriminate; reflexivity.
Qed.


(** X5: a change event that makes the handler throw has emitted nothing
    before the throw: no log line and no outbound call; and what is thrown
    is a [TypeError]. *)
Theorem faulting_event_sends_nothing
    (change : jsval) (h : list event) (e : exn) (s : list event) :
  change_step_ change h = (Throw e, s) -> s = [] /\ e = TypeError.
Proof.
  unfold process_change.
  destruct (get_prop change "field") as [field|e0] eqn:Ef.
  2:{ rewrite bind_lift_Throw. intros [= <- <-].
      destruct change; simpl in Ef; try discriminate; try (now injection Ef as <-).
      destruct (own_prop "field" props); discriminate. }
  run_lift. destruct (strict_eq field (VStr "comments")); [|discriminate].
  destruct (get_prop change "value") as [value|e0] eqn:Ev.
  2:{ rewrite bind_lift_Throw. intros [= <- <-].
      destruct change; simpl in Ev; try discriminate; try (now injection Ev as <-).
      destruct (own_prop "value" props); discriminate. }
  run_lift.
  assert (Hget : forall k e1, get_prop value k = Throw e1 -> e1 = TypeError).
  { intros k e1 H. destruct value; simpl in H; try discriminate;
      try (now injection H as <-). destruct (own_prop k props); discriminate. }
  destruct (get_prop value "text") as [rawText|e0] eqn:Et.
  2:{ rewrite bind_lift_Throw. intros [= <- <-]. split; [reflexivity|].
      now apply (Hget "text"). }
  run_lift.
  destruct (get_prop value "comment_id") as [commentId|e0] eqn:Ec.
  2:{ rewrite bind_lift_Throw. intros [= <- <-]. split; [reflexivity|].
      now apply (Hget "comment_id"). }
  run_lift.
  destruct (negb (truthy rawText) || negb (truthy commentId))%bool; [discriminate|].
  destruct (call_toLowerCase rawText) as [n|e0] eqn:El.
  2:{ rewrite bind_lift_Throw. intros [= <- <-]. split; [reflexivity|].
      destruct rawText; simpl in El; try discriminate; now injection El as <-. }
  run_lift. destruct (includes n KEYWORD); [|discriminate].
  destruct (to_string_throws commentId).
  - intros [= <- <-]. auto.
  - unfold bind, console, emit. rewrite sendPrivateReply_run. discriminate.
Qed.

(** X12: [entry.changes ?? []] lets only a missing or [null] [changes]
    through as empty; a [changes] that is [false], a number or an object
    is not iterable and throws, and a string is walked character by
    character to no effect. *)
Theorem process_entry_changes_shapes (entry changes : jsval) (h : list event) :
  get_prop entry "changes" = Ok changes ->
  entry_step_ entry h =
  match changes with
  | VUndefined | VNull | VStr _ => (Ok tt, [])
  | VBool _ | VNum _ | VObj _ => (Throw TypeError, [])
  | VArr cs => for_each change_step_ cs h
  end.
Proof.
  intros Hc. unfold process_entry. rewrite Hc. run_lift.
  destruct changes as [| |b|x|s|cs|props]; simpl nullish_default;
    unfold for_of; simpl iterate; try run_lift; try reflexivity.
  apply for_each_silent. apply Forall_forall. intros c Hin h'.
  apply in_map_iff in Hin. destruct Hin as (a & <- & _). reflexivity.
Qed.

End MoreDispatcher.

(* ================================================================== *)
(** ** Beyond the claims: POST on any request *)

Section MorePOST.

Variable env : Env.
Variable api_version : string.
Variable transport : Transport.

#[local] Abbreviation request__ := (reply_request env api_version).
#[local] Abbreviation entry_step__ := (process_entry env api_version transport).
#[local] Abbreviation post__ := (POST env api_version transport).

(** X6: POST never throws: whatever the request, the environment and the
    network, it returns a response, with a body, whose status is 200, 404
    or 500. *)
Theorem POST_never_throws (req : NextRequest) (h : list event) :
  exists r s,
    post__ req h = (Ok r, s)
    /\ (status r = 200 \/ status r = 404 \/ status r = 500)
    /\ body r <> None.
Proof.
  destruct (POST_responses env api_version transport req h)
    as (r & s & E & H).
  exists r, s. split; [exact E|].
  destruct H as [(_ & -> & _) | (_ & [-> | [-> | (-> & _)]])];
    simpl; split; auto; discriminate.
Qed.

(** X7: in every run of POST, faulting or not, each outbound call is a
    private reply with the fixed text, sent by POST as JSON to the
    messaging URL that ends in the access token, which is then set and not
    empty; and each call has settled before the next event and before the
    response. *)
Theorem POST_trace_is_orderly (req : NextRequest) (h : list event) :
  let s := snd (post__ req h) in
  awaited false s = true
  /\ Forall
       (fun r =>
          method r = "POST"
          /\ headers r = [("Content-Type", "application/json")]
          /\ message_text (fetch_body r) = REPLY_TEXT
          /\ exists tok,
               META_PAGE_ACCESS_TOKEN env = Some tok /\ tok <> ""
               /\ url r = ("https://graph.facebook.com/" ++ api_version
                           ++ "/me/messages?access_token=" ++ tok)%string)
       (fetches s).
Proof.
  intros s. destruct (orderly_POST env api_version transport req h) as [Ha Hf].
  fold s in Ha, Hf. split; [exact Ha|].
  destruct (truthy (PAGE_ACCESS_TOKEN env)) eqn:Htok.
  - apply access_token_guard in Htok. destruct Htok as (tok & Etok & Hne).
    eapply Forall_impl; [|exact Hf]. intros r ->. simpl.
    repeat split. exists tok. rewrite Etok. auto.
  - subst s. rewrite POST_catch, POST_try_unconfigured by assumption.
    constructor.
Qed.


(** X9: a body that parses to something other than an object: [null]
    makes the read of [body.object] throw and is answered with the
    handled-error response; an array, a string, a number or a boolean has
    no [object] member and is answered 404. *)
Theorem POST_non_object_body (req : NextRequest) (b : jsval) (h : list event) :
  truthy (PAGE_ACCESS_TOKEN env) = true ->
  json req = Ok b ->
  (forall props, b <> VObj props) ->
  post__ req h =
  match b with
  | VNull | VUndefined =>
      (Ok ERROR_HANDLED, [EReqJson; EConsole (LogCrash TypeError)])
  | _ => (Ok NOT_FOUND, [EReqJson])
  end.
Proof.
  intros Htok Hj Hno.
  rewrite POST_catch, (POST_try_parsed _ _ _ _ b) by assumption.
  destruct b; try reflexivity. now elim (Hno props).
Qed.

(** X10: [body.entry || []] takes every falsy [entry] ([null], [false],
    [0], the empty string, as well as a missing one) for an empty
    sequence, and a string [entry] is walked to no effect: the batch is
    acknowledged with no dispatch. *)
Theorem POST_falsy_or_string_entry
    (req : NextRequest) (b entry : jsval) (h : list event) :
  truthy (PAGE_ACCESS_TOKEN env) = true ->
  json req = Ok b ->
  get_prop b "object" = Ok (VStr "instagram") ->
  get_prop b "entry" = Ok entry ->
  (truthy entry = false \/ exists s, entry = VStr s) ->
  post__ req h = (Ok EVENT_RECEIVED, [EReqJson]).
Proof.
  intros Htok Hj Ho He Hshape.
  rewrite POST_catch, (POST_try_parsed _ _ _ _ b) by assumption.
  rewrite Ho, (proj2 (strict_eq_VStr _ _) eq_refl), He.
  assert (Hrun : for_of (or_default entry (VArr [])) entry_step__ (h ++ [EReqJson])
                 = (Ok tt, [])).
  { unfold or_default. destruct Hshape as [Hf | [s ->]].
    - now rewrite Hf.
    - destruct (truthy (VStr s)); [|reflexivity].
      unfold for_of. simpl iterate. run_lift. apply for_each_silent.
      apply Forall_forall. intros c Hin h'. apply in_map_iff in Hin.
      destruct Hin as (a & <- & _). reflexivity. }
  now rewrite Hrun.
Qed.

(** X11: an [entry] that is truthy and neither an array nor a string
    ([true], a non-zero number, an object) cannot be iterated: the batch
    is answered with the handled-error response and nothing is sent. *)
Theorem POST_entry_not_iterable
    (req : NextRequest) (b entry : jsval) (h : list event) :
  truthy (PAGE_ACCESS_TOKEN env) = true ->
  json req = Ok b ->
  get_prop b "object" = Ok (VStr "instagram") ->
  get_prop b "entry" = Ok entry ->
  truthy entry = true ->
  (forall l, entry <> VArr l) ->
  (forall s, entry <> VStr s) ->
  post__ req h = (Ok ERROR_HANDLED, [EReqJson; EConsole (LogCrash TypeError)]).
Proof.
  intros Htok Hj Ho He Ht Hna Hns.
  rewrite POST_catch, (POST_try_parsed _ _ _ _ b) by assumption.
  rewrite Ho, (proj2 (strict_eq_VStr _ _) eq_refl), He.
  unfold or_default. rewrite Ht.
  destruct entry; try discriminate; try reflexivity.
  - now elim (Hns s).
  - now elim (Hna elems).
Qed.

(** X13: change events whose [field] is not [comments] are passed over
    without a look at their [value]: a batch made only of such events is
    acknowledged with no log line and no dispatch, even where [value] is
    missing or [null]. *)
Theorem POST_ignores_other_fields
    (req : NextRequest) (b : jsval) (entries : list jsval) (h : list event) :
  truthy (PAGE_ACCESS_TOKEN env) = true ->
  json req = Ok b ->
  get_prop b "object" = Ok (VStr "instagram") ->
  get_prop b "entry" = Ok (VArr entries) ->
  Forall (fun entry =>
            exists cs,
              get_prop entry "changes" = Ok (VArr cs)
              /\ Forall (fun c => exists f, get_prop c "field" = Ok f
                                            /\ f <> VStr "comments") cs)
         entries ->
  post__ req h = (Ok EVENT_RECEIVED, [EReqJson]).
Proof.
  intros Htok Hj Ho He Hall.
  rewrite POST_catch, (POST_try_parsed _ _ _ _ b) by assumption.
  rewrite Ho, (proj2 (strict_eq_VStr _ _) eq_refl), He.
  unfold or_default. simpl truthy. cbv iota. unfold for_of. simpl iterate.
  run_lift. rewrite for_each_silent; [reflexivity|].
  eapply Forall_impl; [|exact Hall]. intros entry (cs & Hc & Hcs) h'.
  unfold process_entry. rewrite Hc. run_lift. simpl nullish_default.
  unfold for_of. simpl iterate. run_lift. apply for_each_silent.
  eapply Forall_impl; [|exact Hcs]. intros c (f & Hf & Hne) h''.
  unfold process_change. rewrite Hf. run_lift.
  now rewrite (strict_eq_VStr_false _ _ Hne).
Qed.

(** X14: nothing is remembered between events: a batch that carries the
    same matching comment [n] times sends the reply to it [n] times. *)
Theorem POST_no_deduplication
    (req : NextRequest) (b : jsval) (p : WebhookPayload)
    (c : WebhookChange) (i : string) (n : nat) (h : list event) :
  truthy (PAGE_ACCESS_TOKEN env) = true ->
  json req = Ok b ->
  decode_payload b = Some p ->
  object p = "instagram" ->
  changes_of p = repeat c n ->
  actionable_match c = Some i ->
  exists s,
    post__ req h = (Ok EVENT_RECEIVED, EReqJson :: s)
    /\ fetches s = repeat (request__ (VStr i)) n.
Proof.
  intros Htok Hj Hdec Hobj Hrep Hm.
  destruct (POST_typed env api_version transport req b p h Htok Hj Hdec Hobj)
    as (s & E & Hf & _).
  exists s. split; [exact E|]. rewrite Hf. unfold actionable_matches.
  now rewrite Hrep, (select_repeat _ _ i n Hm), map_repeat.
Qed.

(** X15: the response of POST is the same in both revisions of the
    route (whatever the API version in the URL), on any two networks. *)
Theorem POST_same_response_in_both_revisions
    (other_version : string) (other_transport : Transport)
    (req : NextRequest) (h1 h2 : list event) :
  fst (post__ req h1) = fst (POST env other_version other_transport req h2).
Proof. apply same_result_POST_versions. Qed.

End MorePOST.

(* ================================================================== *)
(** ** Beyond the claims: the keyword test and the verifier *)

(** X16: the keyword test is kept by context: a text that matches still
    matches with anything written before and after it. *)
Theorem keyword_match_in_context (pre t post : string) :
  keyword_match t = true ->
  keyword_match (pre ++ t ++ post) = true.
Proof.
  intros H. apply keyword_match_spec in H.
  destruct H as (a & mid & c & -> & Hm). apply keyword_match_spec.
  exists (pre ++ a)%string, mid, (c ++ post)%string. split; [|exact Hm].
  clear. induction pre as [|x pre IH]; simpl.
  - induction a as [|y a IHa]; simpl.
    + induction mid as [|z mid IHm]; simpl; [reflexivity | now rewrite IHm].
    + now rewrite IHa.
  - now rewrite IH.
Qed.


(** X18: a verification request that is accepted and carries no
    [hub.challenge] is answered 200 with an empty body. *)
Theorem GET_without_challenge
    (env : Env) (req : NextRequest) (t : string) (h : list event) :
  searchParams_get (searchParams req) "hub.mode" = VStr "subscribe" ->
  searchParams_get (searchParams req) "hub.verify_token" = VStr t ->
  META_VERIFY_TOKEN env = Some t ->
  has_param (searchParams req) "hub.challenge" = false ->
  GET env req h = (Ok (mkResponse None 200), [EConsole LogWebhookVerified]).
Proof.
  intros Hm Ht Hs Hc. unfold GET, VERIFY_TOKEN.
  rewrite Hm, Ht, Hs, (searchParams_get_absent _ _ Hc). simpl.
  now rewrite String.eqb_refl.
Qed.

(* ================================================================== *)
(** ** The further properties on sample inputs *)

Lemma dm_sent_logged_iff_witness :
  In (EConsole LogDmSent)
     (snd (sendPrivateReply Samples.env "v21.0" Samples.net_ok (VStr "c1") [])).
Proof.
  apply (proj2 (dm_sent_logged_iff Samples.env "v21.0" Samples.net_ok
                  (VStr "c1") [])).
  exists (VObj [("message_id", VStr "m_1")]), VUndefined.
  repeat split.
Defined.

(** A number for [text] and no usable [comment_id]: skipped, no fault. *)
Lemma skip_guard_comes_first_witness :
  process_change Samples.env "v21.0" Samples.net_ok
    (EdgeSamples.raw_change "comments" (VNum 5%float) VNull) []
  = (Ok tt, [EConsole LogSkippingComment]).
Proof.
  apply (skip_guard_comes_first Samples.env "v21.0" Samples.net_ok
           (EdgeSamples.raw_change "comments" (VNum 5%float) VNull)
           (VObj [("text", VNum 5%float); ("comment_id", VNull)])
           (VNum 5%float) VNull []).
  - reflexivity.
  - reflexivity.
  - reflexivity.
  - reflexivity.
  - reflexivity.
Defined.


(** A number for [text] with a usable [comment_id]: the throw, and
    nothing before it. *)
Lemma faulting_event_sends_nothing_witness :
  exists e s,
    process_change Samples.env "v21.0" Samples.net_ok
      (EdgeSamples.raw_change "comments" (VNum 5%float) (VStr "c7")) []
    = (Throw e, s)
    /\ s = [] /\ e = TypeError.
Proof.
  exists TypeError, []. split; [reflexivity|].
  apply (faulting_event_sends_nothing Samples.env "v21.0" Samples.net_ok
           (EdgeSamples.raw_change "comments" (VNum 5%float) (VStr "c7")) []
           TypeError []).
  reflexivity.
Defined.


Lemma POST_non_object_body_witness :
  POST Samples.env "v21.0" Samples.net_ok (mkRequest [] (Ok VNull)) []
  = (Ok ERROR_HANDLED, [EReqJson; EConsole (LogCrash TypeError)])
  /\ POST Samples.env "v21.0" Samples.net_ok
       (mkRequest [] (Ok (VArr [VStr "instagram"]))) []
     = (Ok NOT_FOUND, [EReqJson]).
Proof.
  split.
  - apply (POST_non_object_body Samples.env "v21.0" Samples.net_ok
             (mkRequest [] (Ok VNull)) VNull []).
    + reflexivity.
    + reflexivity.
    + discriminate.
  - apply (POST_non_object_body Samples.env "v21.0" Samples.net_ok
             (mkRequest [] (Ok (VArr [VStr "instagram"])))
             (VArr [VStr "instagram"]) []).
    + reflexivity.
    + reflexivity.
    + discriminate.
Defined.

Lemma POST_falsy_or_string_entry_witness :
  POST Samples.env "v21.0" Samples.net_ok
    (mkRequest [] (Ok (EdgeSamples.instagram_body (VNum 0%float)))) []
  = (Ok EVENT_RECEIVED, [EReqJson])
  /\ POST Samples.env "v21.0" Samples.net_ok
       (mkRequest [] (Ok (EdgeSamples.instagram_body (VStr "none")))) []
     = (Ok EVENT_RECEIVED, [EReqJson]).
Proof.
  split.
  - apply (POST_falsy_or_string_entry Samples.env "v21.0" Samples.net_ok
             (mkRequest [] (Ok (EdgeSamples.instagram_body (VNum 0%float))))
             (EdgeSamples.instagram_body (VNum 0%float)) (VNum 0%float) []).
    + reflexivity.
    + reflexivity.
    + reflexivity.
    + reflexivity.
    + left. reflexivity.
  - apply (POST_falsy_or_string_entry Samples.env "v21.0" Samples.net_ok
             (mkRequest [] (Ok (EdgeSamples.instagram_body (VStr "none"))))
             (EdgeSamples.instagram_body (VStr "none")) (VStr "none") []).
    + reflexivity.
    + reflexivity.
    + reflexivity.
    + reflexivity.
    + right. exists "none". reflexivity.
Defined.

Lemma POST_entry_not_iterable_witness :
  POST Samples.env "v21.0" Samples.net_ok
    (mkRequest [] (Ok (EdgeSamples.instagram_body (VBool true)))) []
  = (Ok ERROR_HANDLED, [EReqJson; EConsole (LogCrash TypeError)]).
Proof.
  apply (POST_entry_not_iterable Samples.env "v21.0" Samples.net_ok
           (mkRequest [] (Ok (EdgeSamples.instagram_body (VBool true))))
           (EdgeSamples.instagram_body (VBool true)) (VBool true) []).
  - reflexivity.
  - reflexivity.
  - reflexivity.
  - reflexivity.
  - reflexivity.
  - discriminate.
  - discriminate.
Defined.

(** [changes: false] throws where [changes: null] does not. *)
Lemma process_entry_changes_shapes_witness :
  process_entry Samples.env "v21.0" Samples.net_ok
    (EdgeSamples.entry_with_changes (VBool false)) []
  = (Throw TypeError, [])
  /\ process_entry Samples.env "v21.0" Samples.net_ok
       (EdgeSamples.entry_with_changes VNull) []
     = (Ok tt, []).
Proof.
  split.
  - apply (process_entry_changes_shapes Samples.env "v21.0" Samples.net_ok
             (EdgeSamples.entry_with_changes (VBool false)) (VBool false) []).
    reflexivity.
  - apply (process_entry_changes_shapes Samples.env "v21.0" Samples.net_ok
             (EdgeSamples.entry_with_changes VNull) VNull []).
    reflexivity.
Defined.

Lemma POST_ignores_other_fields_witness :
  POST Samples.env "v21.0" Samples.net_ok
    (mkRequest [] (Ok EdgeSamples.body_other_fields)) []
  = (Ok EVENT_RECEIVED, [EReqJson]).
Proof.
  apply (POST_ignores_other_fields Samples.env "v21.0" Samples.net_ok
           (mkRequest [] (Ok EdgeSamples.body_other_fields))
           EdgeSamples.body_other_fields
           [EdgeSamples.entry_with_changes
              (VArr [EdgeSamples.raw_change "mentions" (VStr "roadmap") (VStr "c1");
                     VObj [("field", VStr "story_insights")]])] []).
  - reflexivity.
  - reflexivity.
  - reflexivity.
  - reflexivity.
  - repeat constructor. eexists. split; [reflexivity|].
    repeat constructor; eexists; (split; [reflexivity | discriminate]).
Defined.

Lemma POST_no_deduplication_witness :
  exists s,
    POST Samples.env "v21.0" Samples.net_ok
      (request_of (Samples.batch (repeat EdgeSamples.repeated_comment 3))) []
    = (Ok EVENT_RECEIVED, EReqJson :: s)
    /\ fetches s = repeat (reply_request Samples.env "v21.0" (VStr "c1")) 3.
Proof.
  apply (POST_no_deduplication Samples.env "v21.0" Samples.net_ok
           (request_of (Samples.batch (repeat EdgeSamples.repeated_comment 3)))
           (encode_payload (Samples.batch (repeat EdgeSamples.repeated_comment 3)))
           (Samples.batch (repeat EdgeSamples.repeated_comment 3))
           EdgeSamples.repeated_comment "c1" 3 []).
  - reflexivity.
  - reflexivity.
  - reflexivity.
  - reflexivity.
  - reflexivity.
  - reflexivity.
Defined.

Lemma keyword_match_in_context_witness :
  keyword_match ("see the " ++ "RoadMap" ++ "ping doc") = true.
Proof.
  apply (keyword_match_in_context "see the " "RoadMap" "ping doc").
  reflexivity.
Defined.


Lemma GET_without_challenge_witness :
  GET Samples.env
    (Samples.verification
       [("hub.mode", "subscribe"); ("hub.verify_token", "verify-me")]) []
  = (Ok (mkResponse None 200), [EConsole LogWebhookVerified]).
Proof.
  apply (GET_without_challenge Samples.env
           (Samples.verification
              [("hub.mode", "subscribe"); ("hub.verify_token", "verify-me")])
           "verify-me" []).
  - reflexivity.
  - reflexivity.
  - reflexivity.
  - reflexivity.
Defined.
